(** * BlogSpark: the stateful three-stage generation pipeline

    A shallow embedding of [blogspark.py] (class [BlogSparkAgent] and its
    command-line loop) together with the parts of the Python runtime the
    class relies on: text as sequences of code points, JSON-shaped values
    with Python's truthiness, equality and container operations, and the
    decoder behind [json.loads].

    Layout: data and operations first (modules [Text], [Py], [Json], then
    the agent itself), theorems afterwards. *)

From Stdlib Require Import List NArith ZArith Lia Bool String Ascii.
Import ListNotations.

Set Warnings "-register-all".
Set Implicit Arguments.
Unset Strict Implicit.

(* ===================================================================== *)
(** ** Text *)
(* ===================================================================== *)

Module Text.

(** A Python [str] is a sequence of Unicode code points. *)
Definition str := list N.

Definition lit (s : string) : str :=
  List.map N_of_ascii (list_ascii_of_string s).

Fixpoint str_eqb (a b : str) : bool :=
  match a, b with
  | [], [] => true
  | x :: a', y :: b' => N.eqb x y && str_eqb a' b'
  | _, _ => false
  end.

(** [str.isspace] per code point: the characters [str.strip()] removes. *)
Definition is_space (c : N) : bool :=
  ((9 <=? c) && (c <=? 13) || (28 <=? c) && (c <=? 32)
   || (c =? 133) || (c =? 160) || (c =? 5760)
   || (8192 <=? c) && (c <=? 8202)
   || (c =? 8232) || (c =? 8233) || (c =? 8239) || (c =? 8287)
   || (c =? 12288))%N.

Fixpoint lstrip (s : str) : str :=
  match s with
  | c :: s' => if is_space c then lstrip s' else s
  | [] => []
  end.

(** [rstrip] drops the maximal all-whitespace suffix. *)
Fixpoint rstrip (s : str) : str :=
  match s with
  | [] => []
  | c :: s' =>
      match rstrip s' with
      | [] => if is_space c then [] else [c]
      | r => c :: r
      end
  end.

(** [s.strip()] *)
Definition strip (s : str) : str := rstrip (lstrip s).

(** [s.lower()], per code point.  Exact on ASCII and on every code point
    without a lowercase mapping (all whitespace among them).  The loop
    below only compares the result with ["exit"] and ["quit"], and no code
    point outside [A-Z] lowercases to one of the letters of these words,
    so the comparison is decided exactly as Python decides it. *)
Definition lower_cp (c : N) : N :=
  if ((65 <=? c) && (c <=? 90))%N then (c + 32)%N else c.

Definition lower (s : str) : str := List.map lower_cp s.

(** [prefix in s] for two strings: substring search. *)
Fixpoint starts_with (p s : str) : bool :=
  match p, s with
  | [], _ => true
  | x :: p', y :: s' => N.eqb x y && starts_with p' s'
  | _ :: _, [] => false
  end.

Fixpoint is_infix (p s : str) : bool :=
  starts_with p s ||
  match s with
  | [] => false
  | _ :: s' => is_infix p s'
  end.

(** [sep.join(parts)] *)
Fixpoint join (sep : str) (parts : list str) : str :=
  match parts with
  | [] => []
  | [p] => p
  | p :: rest => p ++ sep ++ join sep rest
  end.

End Text.
Export Text.

(* ===================================================================== *)
(** ** Python values *)
(* ===================================================================== *)

Module Py.

(** A Python [float] that is not a NaN or an infinity is a dyadic
    rational [m * 2^e]; the sign is kept apart so that [-0.0] exists. *)
Inductive pyfloat :=
| FNan
| FInf (neg : bool)
| FFin (neg : bool) (m : N) (e : Z).

(** The values [json.loads] can build, plus nothing else: the agent only
    handles data of this shape. A [dict] keeps insertion order and has
    string keys; keys are unique (see [dict_set]). *)
Inductive value :=
| VNone
| VBool (b : bool)
| VInt (z : Z)
| VFloat (f : pyfloat)
| VStr (s : str)
| VList (l : list value)
| VDict (d : list (str * value)).

(** The exception classes that occur; all derive from [Exception]. *)
Inductive exn :=
| TypeError
| AttributeError
| KeyError
| FileNotFoundError
| PermissionError
| UnicodeDecodeError
| JSONDecodeError.

(** *** Dictionaries *)

Fixpoint dict_get (k : str) (d : list (str * value)) : option value :=
  match d with
  | [] => None
  | (k', v) :: d' => if str_eqb k k' then Some v else dict_get k d'
  end.

(** [d[k] = v]: replaces in place when the key exists, appends otherwise. *)
Fixpoint dict_set (k : str) (v : value) (d : list (str * value))
  : list (str * value) :=
  match d with
  | [] => [(k, v)]
  | (k', v') :: d' =>
      if str_eqb k k' then (k', v) :: d' else (k', v') :: dict_set k v d'
  end.

Definition dict_has (k : str) (d : list (str * value)) : bool :=
  match dict_get k d with Some _ => true | None => false end.

(** *** Numbers *)

(** The exact value of a finite float against an integer, and against
    another finite float, by cross-multiplication with powers of two. *)
Definition scale (m : N) (e : Z) : Z * Z :=
  (* m * 2^e as a fraction num / 2^k *)
  if (0 <=? e)%Z then (Z.of_N m * 2 ^ e, 0)%Z else (Z.of_N m, - e)%Z.

Definition signed (neg : bool) (z : Z) : Z := if neg then (- z)%Z else z.

Definition fin_eq_int (neg : bool) (m : N) (e : Z) (z : Z) : bool :=
  let '(num, k) := scale m e in
  (signed neg num =? z * 2 ^ k)%Z.

Definition fin_eq_fin (n1 : bool) (m1 : N) (e1 : Z)
                      (n2 : bool) (m2 : N) (e2 : Z) : bool :=
  let '(a, k1) := scale m1 e1 in
  let '(b, k2) := scale m2 e2 in
  (signed n1 a * 2 ^ k2 =? signed n2 b * 2 ^ k1)%Z.

Definition float_eq (a b : pyfloat) : bool :=
  match a, b with
  | FNan, FNan => true
  | FNan, _ | _, FNan => false
  | FInf x, FInf y => Bool.eqb x y
  | FFin n1 m1 e1, FFin n2 m2 e2 => fin_eq_fin n1 m1 e1 n2 m2 e2
  | _, _ => false
  end.

Definition float_eq_int (a : pyfloat) (z : Z) : bool :=
  match a with
  | FFin n m e => fin_eq_int n m e z
  | _ => false
  end.

Definition int_of_bool (b : bool) : Z := if b then 1%Z else 0%Z.

(** *** Truthiness and equality *)

(** [bool(v)] *)
Definition truthy (v : value) : bool :=
  match v with
  | VNone => false
  | VBool b => b
  | VInt z => negb (z =? 0)%Z
  | VFloat FNan => true
  | VFloat (FInf _) => true
  | VFloat (FFin _ m _) => negb (m =? 0)%N
  | VStr s => match s with [] => false | _ => true end
  | VList l => match l with [] => false | _ => true end
  | VDict d => match d with [] => false | _ => true end
  end.

(** [a is b or a == b], the comparison behind [in] on a list and behind
    the equality of containers. Numbers compare by value across [bool],
    [int] and [float]; lists compare element by element; dicts compare
    as finite maps, whatever the order of their keys. Every NaN the
    decoder answers is the one object [json.decoder.NaN], so two of them
    are identical. Compared with a string, this is [==]. *)
Fixpoint py_eq (a b : value) {struct a} : bool :=
  match a, b with
  | VNone, VNone => true
  | VBool x, VBool y => Bool.eqb x y
  | VBool x, VInt z | VInt z, VBool x => (int_of_bool x =? z)%Z
  | VBool x, VFloat f | VFloat f, VBool x => float_eq_int f (int_of_bool x)
  | VInt x, VInt y => (x =? y)%Z
  | VInt z, VFloat f | VFloat f, VInt z => float_eq_int f z
  | VFloat f, VFloat g => float_eq f g
  | VStr s, VStr t => str_eqb s t
  | VList l, VList l' =>
      (fix eq_list (l : list value) (l' : list value) {struct l} : bool :=
         match l, l' with
         | [], [] => true
         | x :: xs, y :: ys => py_eq x y && eq_list xs ys
         | _, _ => false
         end) l l'
  | VDict d, VDict d' =>
      Nat.eqb (List.length d) (List.length d') &&
      (fix eq_items (d : list (str * value)) {struct d} : bool :=
         match d with
         | [] => true
         | (k, v) :: rest =>
             match dict_get k d' with
             | Some v' => py_eq v v' && eq_items rest
             | None => false
             end
         end) d
  | _, _ => false
  end.

(** *** Results and the operations of the data model *)

Inductive result (A : Type) :=
| Ok (a : A)
| Raise (e : exn).
Arguments Raise {A} e.

(** [x in c] *)
Definition py_contains (x c : value) : result bool :=
  match c with
  | VList l => Ok (existsb (py_eq x) l)
  | VStr s =>
      match x with
      | VStr p => Ok (is_infix p s)
      | _ => Raise TypeError
      end
  | VDict d =>
      match x with
      | VList _ | VDict _ => Raise TypeError        (* unhashable *)
      | VStr k => Ok (dict_has k d)
      | _ => Ok false
      end
  | _ => Raise TypeError
  end.

(** [c[k]] for a string key [k] *)
Definition py_getitem (c : value) (k : str) : result value :=
  match c with
  | VDict d =>
      match dict_get k d with
      | Some v => Ok v
      | None => Raise KeyError
      end
  | _ => Raise TypeError
  end.

(** [c[k] = v] for a string key [k]; the updated container *)
Definition py_setitem (c : value) (k : str) (v : value) : result value :=
  match c with
  | VDict d => Ok (VDict (dict_set k v d))
  | _ => Raise TypeError
  end.

(** [c.get(k, default)] *)
Definition py_get (c : value) (k : str) (default : value) : result value :=
  match c with
  | VDict d =>
      match dict_get k d with
      | Some v => Ok v
      | None => Ok default
      end
  | _ => Raise AttributeError
  end.

(** [c.append(x)]; the updated container *)
Definition py_append (c : value) (x : value) : result value :=
  match c with
  | VList l => Ok (VList (l ++ [x]))
  | _ => Raise AttributeError
  end.

(** [c.append], looked up before its argument is evaluated *)
Definition py_append_method (c : value) : result unit :=
  match c with
  | VList _ => Ok tt
  | _ => Raise AttributeError
  end.

(** [for h in c]: the items the iteration yields *)
Definition py_iter (c : value) : result (list value) :=
  match c with
  | VList l => Ok l
  | VStr s => Ok (List.map (fun ch => VStr [ch]) s)
  | VDict d => Ok (List.map (fun kv => VStr (fst kv)) d)
  | _ => Raise TypeError
  end.

(** [l[-3:]] on a list *)
Definition last3 (A : Type) (l : list A) : list A :=
  skipn (List.length l - 3) l.

End Py.
Export Py.

(* ===================================================================== *)
(** ** The JSON decoder behind [json.loads] *)
(* ===================================================================== *)

Module Json.

(** Outcome of a scanner: a value and the unread rest, a syntax error, or
    the recursion budget used up. *)
Inductive parsed (A : Type) :=
| POk (a : A) (rest : str)
| PErr
| PFuel.
Arguments PErr {A}.
Arguments PFuel {A}.

Definition is_digit (c : N) : bool := ((48 <=? c) && (c <=? 57))%N.

Definition is_json_ws (c : N) : bool :=
  ((c =? 32) || (c =? 9) || (c =? 10) || (c =? 13))%N.

Fixpoint skip_ws (s : str) : str :=
  match s with
  | c :: s' => if is_json_ws c then skip_ws s' else s
  | [] => []
  end.

(** *** Numbers *)

(** Reads a maximal run of ASCII digits; its value, its length, the rest. *)
Fixpoint take_digits (acc : N) (n : nat) (s : str) : N * nat * str :=
  match s with
  | c :: s' =>
      if is_digit c then take_digits (acc * 10 + (c - 48))%N (S n) s'
      else (acc, n, s)
  | [] => (acc, n, [])
  end.

Definition round_half_even (num den : Z) : Z :=
  let q := (num / den)%Z in
  let r := (num mod den)%Z in
  if (2 * r <? den)%Z then q
  else if (den <? 2 * r)%Z then (q + 1)%Z
  else if Z.even q then q else (q + 1)%Z.

(** [float(text)] for the decimal [d * 10^e10]: the nearest binary64,
    ties to even, gradual underflow, overflow to infinity. *)
Definition float_of_decimal (neg : bool) (d : N) (e10 : Z) : pyfloat :=
  if (d =? 0)%N then FFin neg 0 0 else
  let num := (Z.of_N d * 10 ^ Z.max e10 0)%Z in
  let den := (10 ^ Z.max (- e10) 0)%Z in
  let k0 := (Z.log2 num - Z.log2 den)%Z in
  let below :=              (* num / den < 2^k0 *)
    if (0 <=? k0)%Z then (num <? 2 ^ k0 * den)%Z
    else (num * 2 ^ (- k0) <? den)%Z in
  let k := if below then (k0 - 1)%Z else k0 in
  let e := (Z.max k (-1022) - 52)%Z in
  let m := if (0 <=? e)%Z then round_half_even num (den * 2 ^ e)
           else round_half_even (num * 2 ^ (- e)) den in
  if ((1024 <=? k) || ((e =? 971) && (m =? 2 ^ 53)))%Z then FInf neg
  else FFin neg (Z.to_N m) e.

(** The number grammar of the scanner: an optional minus sign; a zero, or
    a non-zero digit and more digits; optionally a dot and one digit or
    more; optionally e or E, a sign, and one digit or more. The result is
    an integer without fraction and exponent, a float otherwise. A
    fraction or exponent that is not complete is left unread. *)
Definition number_sign (s : str) : bool * str :=
  match s with
  | c :: r => if (c =? 45)%N then (true, r) else (false, s)
  | [] => (false, s)
  end.

(** The integer part: a zero alone, or digits not starting with zero. *)
Definition number_int (s : str) : option (N * str) :=
  match s with
  | c :: r =>
      if is_digit c then
        if (c =? 48)%N then Some (0%N, r)
        else let '(v, _, rest) := take_digits 0 0 s in Some (v, rest)
      else None
  | [] => None
  end.

(** The fraction: a dot and at least one digit. Answers the digits read
    so far continued by those of the fraction, and their number. *)
Definition number_frac (ip : N) (s : str) : option (N * nat * str) :=
  match s with
  | dot :: c1 :: r =>
      if (dot =? 46)%N && is_digit c1
      then Some (take_digits ip 0 (c1 :: r))
      else None
  | _ => None
  end.

(** The exponent: e or E, a sign if something follows it, and at least
    one digit. *)
Definition number_exp (s : str) : option (Z * str) :=
  match s with
  | e :: c1 :: r1 =>
      if ((e =? 101) || (e =? 69))%N then
        let '(eneg, s') :=
          match r1 with
          | _ :: _ =>
              if (c1 =? 45)%N then (true, r1)
              else if (c1 =? 43)%N then (false, r1)
              else (false, c1 :: r1)
          | [] => (false, c1 :: r1)
          end in
        let '(v, n, rest) := take_digits 0 0 s' in
        match n with
        | O => None
        | S _ => Some (signed eneg (Z.of_N v), rest)
        end
      else None
  | _ => None
  end.

Definition match_number (s : str) : parsed value :=
  let '(neg, s0) := number_sign s in
  match number_int s0 with
  | None => PErr
  | Some (ip, s1) =>
      let '(digits, fn, s2, has_frac) :=
        match number_frac ip s1 with
        | Some (v, n, rest) => (v, n, rest, true)
        | None => (ip, 0%nat, s1, false)
        end in
      match number_exp s2 with
      | Some (ex, s3) =>
          POk (VFloat (float_of_decimal neg digits (ex - Z.of_nat fn))) s3
      | None =>
          if has_frac
          then POk (VFloat (float_of_decimal neg digits (- Z.of_nat fn))) s2
          else POk (VInt (signed neg (Z.of_N ip))) s2
      end
  end.

(** *** Strings *)

Definition hex_digit (c : N) : option N :=
  if is_digit c then Some (c - 48)%N
  else if ((97 <=? c) && (c <=? 102))%N then Some (c - 87)%N
  else if ((65 <=? c) && (c <=? 70))%N then Some (c - 55)%N
  else None.

(** Four hexadecimal digits *)
Definition hex4 (s : str) : option (N * str) :=
  match s with
  | a :: b :: c :: d :: r =>
      match hex_digit a, hex_digit b, hex_digit c, hex_digit d with
      | Some a, Some b, Some c, Some d =>
          Some ((((a * 16 + b) * 16 + c) * 16 + d)%N, r)
      | _, _, _, _ => None
      end
  | _ => None
  end.

Definition simple_escape (c : N) : option N :=
  (if c =? 34 then Some 34 else if c =? 92 then Some 92
   else if c =? 47 then Some 47 else if c =? 98 then Some 8
   else if c =? 102 then Some 12 else if c =? 110 then Some 10
   else if c =? 114 then Some 13 else if c =? 116 then Some 9
   else None)%N.

(** The body of a string literal after its opening quote, in strict mode:
    raw control characters are refused, a high surrogate escape directly
    followed by a low surrogate escape is joined. The recursion is on
    [n], at least the length of the text. *)
Fixpoint scanstring_aux (n : nat) (s : str) (acc : str) : option (str * str) :=
  match n with
  | O => None
  | S n' =>
      match s with
      | [] => None
      | c :: r =>
          if (c =? 34)%N then Some (List.rev acc, r)
          else if (c =? 92)%N then
            match r with
            | [] => None
            | e :: r1 =>
                if (e =? 117)%N then
                  match hex4 r1 with
                  | None => None
                  | Some (u, r2) =>
                      if ((55296 <=? u) && (u <=? 56319))%N then
                        match r2 with
                        | b1 :: b2 :: r3 =>
                            if ((b1 =? 92) && (b2 =? 117))%N then
                              match hex4 r3 with
                              | None => None
                              | Some (u2, r4) =>
                                  if ((56320 <=? u2) && (u2 <=? 57343))%N
                                  then scanstring_aux n' r4
                                         ((65536 + (u - 55296) * 1024
                                           + (u2 - 56320)) :: acc)%N
                                  else scanstring_aux n' r2 (u :: acc)
                              end
                            else scanstring_aux n' r2 (u :: acc)
                        | _ => scanstring_aux n' r2 (u :: acc)
                        end
                      else scanstring_aux n' r2 (u :: acc)
                  end
                else
                  match simple_escape e with
                  | Some x => scanstring_aux n' r1 (x :: acc)
                  | None => None
                  end
            end
          else if (c <=? 31)%N then None
          else scanstring_aux n' r (c :: acc)
      end
  end.

Definition scanstring (s : str) : option (str * str) :=
  scanstring_aux (List.length s) s [].

(** *** Values *)

Definition literal (word : str) (v : value) (s : str) : parsed value :=
  if starts_with word s then POk v (skipn (List.length word) s) else PErr.

(** [scan_once] with its two loops: the items of an array after [[], the
    members of an object after [{]. [dict(pairs)] keeps the first position
    and the last value of a repeated key, which is [dict_set]. *)
Fixpoint scan_once (fuel : nat) (s : str) : parsed value :=
  match fuel with
  | O => PFuel
  | S fuel' =>
      match s with
      | [] => PErr
      | c :: r =>
          if (c =? 34)%N then
            match scanstring r with
            | Some (x, rest) => POk (VStr x) rest
            | None => PErr
            end
          else if (c =? 123)%N then
            match skip_ws r with
            | [] => PErr
            | c1 :: r1 =>
                if (c1 =? 125)%N then POk (VDict []) r1
                else parse_members fuel' (c1 :: r1) []
            end
          else if (c =? 91)%N then
            match skip_ws r with
            | [] => PErr
            | c1 :: r1 =>
                if (c1 =? 93)%N then POk (VList []) r1
                else parse_items fuel' (c1 :: r1) []
            end
          else if (c =? 110)%N then literal (lit "null") VNone s
          else if (c =? 116)%N then literal (lit "true") (VBool true) s
          else if (c =? 102)%N then literal (lit "false") (VBool false) s
          else if (c =? 78)%N then literal (lit "NaN") (VFloat FNan) s
          else if (c =? 73)%N
               then literal (lit "Infinity") (VFloat (FInf false)) s
          else if starts_with (lit "-Infinity") s
               then literal (lit "-Infinity") (VFloat (FInf true)) s
          else match_number s
      end
  end

with parse_items (fuel : nat) (s : str) (acc : list value) : parsed value :=
  match fuel with
  | O => PFuel
  | S fuel' =>
      match scan_once fuel' s with
      | POk v rest =>
          match skip_ws rest with
          | [] => PErr
          | c :: r =>
              if (c =? 93)%N then POk (VList (List.rev (v :: acc))) r
              else if (c =? 44)%N
                   then parse_items fuel' (skip_ws r) (v :: acc)
              else PErr
          end
      | PErr => PErr
      | PFuel => PFuel
      end
  end

with parse_members (fuel : nat) (s : str) (acc : list (str * value))
  : parsed value :=
  match fuel with
  | O => PFuel
  | S fuel' =>
      match s with
      | [] => PErr
      | q :: r0 =>
          if (q =? 34)%N then
            match scanstring r0 with
            | None => PErr
            | Some (key, r1) =>
                match skip_ws r1 with
                | [] => PErr
                | c :: r2 =>
                    if (c =? 58)%N then
                      match scan_once fuel' (skip_ws r2) with
                      | POk v rest =>
                          let acc' := dict_set key v acc in
                          match skip_ws rest with
                          | [] => PErr
                          | c' :: r3 =>
                              if (c' =? 125)%N then POk (VDict acc') r3
                              else if (c' =? 44)%N
                                   then parse_members fuel' (skip_ws r3) acc'
                              else PErr
                          end
                      | PErr => PErr
                      | PFuel => PFuel
                      end
                    else PErr
                end
            end
          else PErr
      end
  end.

(** [json.loads(s)]: one value between optional whitespace, nothing
    after it. [None] stands for the decoder raising. The budget is never
    used up ([decoder_budget_suffices] below). Neither the depth of
    nesting nor the length of an integer is bounded here; CPython gives
    up on extreme ones with an exception, which the agent treats like
    any failure to decode. *)
Definition json_loads (s : str) : option value :=
  match scan_once (2 * List.length s + 1) (skip_ws s) with
  | POk v rest =>
      match skip_ws rest with
      | [] => Some v
      | _ :: _ => None
      end
  | _ => None
  end.

End Json.
Export Json.

(* ===================================================================== *)
(** ** The agent and its surroundings *)
(* ===================================================================== *)

(** The three prompts [generate_content] is called with. Each is a fixed
    template around interpolated values; a prompt is represented by the
    values that fill its template, in the order they occur in it. *)
Inductive prompt :=
| UnderstandingPrompt (user_input : str)
    (* input_understanding: User Input: "{user_input}" *)
| PlanningPrompt (topic tone constraints : value)
                 (niches : str) (history_topics : list value)
                 (casual : bool)
    (* plan_task: Topic, Tone, Constraints, Niches, Last Prompts, and
       which of the two tone directives step 5 shows *)
| OutputPrompt (plan : str) (tone : value).
    (* generate_output: the plan and "Use tone: {tone}" *)

(** What [open(self.state_file, "r")] followed by reading finds:
    no file, a file that cannot be opened or decoded (the exception
    raised), some text, or the text [json.dump(v, f, indent=2)] wrote for
    a value [v], which [json.load] reads back as [v]. *)
Inductive file :=
| Missing
| Unreadable (e : exn)
| Text (s : str)
| Dump (v : value).

(** The lines [print] is called with; how the console renders their
    markup is not part of the model. *)
Inductive line :=
| ErrorParsingInput (e : exn)    (* "[red]Error parsing input:[/red] {e}" *)
| Banner                         (* the three opening lines *)
| PleaseEnter                    (* "Agent: Please enter a valid request" *)
| Reply (response : str)         (* "BlogSpark:" and the response *)
| ErrorLine (e : exn)            (* "Error: {str(e)}" *)
| SessionEnded.                  (* "Session ended. ..." *)

(** Everything a run can read or change. [oracle n p] is the text the
    generation service answers when [p] is the prompt of call number [n];
    [clock n] is the text of [datetime.now().isoformat()] at its [n]-th
    reading. Writing the state file is taken to succeed. *)
Record machine := Machine {
  oracle : nat -> prompt -> str;
  clock : nat -> str;
  fs : file;                     (* agent_state.json *)
  calls : list prompt;           (* prompts sent so far, oldest first *)
  ticks : nat;                   (* clock readings so far *)
  console : list line;           (* lines printed so far, oldest first *)
  state : value                  (* self.state *)
}.

Definition with_fs (f : file) (m : machine) : machine :=
  Machine (oracle m) (clock m) f (calls m) (ticks m) (console m) (state m).
Definition with_calls (c : list prompt) (m : machine) : machine :=
  Machine (oracle m) (clock m) (fs m) c (ticks m) (console m) (state m).
Definition with_ticks (t : nat) (m : machine) : machine :=
  Machine (oracle m) (clock m) (fs m) (calls m) t (console m) (state m).
Definition with_console (c : list line) (m : machine) : machine :=
  Machine (oracle m) (clock m) (fs m) (calls m) (ticks m) c (state m).
Definition with_state (s : value) (m : machine) : machine :=
  Machine (oracle m) (clock m) (fs m) (calls m) (ticks m) (console m) s.

(** *** Computations: state passing with exceptions

    An exception leaves the machine as it was when it was raised. *)

Definition M (A : Type) : Type := machine -> result A * machine.

Definition ret (A : Type) (a : A) : M A := fun m => (Ok a, m).

Definition bind (A B : Type) (c : M A) (k : A -> M B) : M B :=
  fun m =>
    match c m with
    | (Ok a, m') => k a m'
    | (Raise e, m') => (Raise e, m')
    end.

Definition raise (A : Type) (e : exn) : M A := fun m => (Raise e, m).
Arguments raise {A} e.

Definition lift (A : Type) (r : result A) : M A := fun m => (r, m).

(** [try: c  except <classes> as e: h e] *)
Definition try_except (A : Type) (c : M A) (caught : exn -> bool)
                      (h : exn -> M A) : M A :=
  fun m =>
    match c m with
    | (Ok a, m') => (Ok a, m')
    | (Raise e, m') => if caught e then h e m' else (Raise e, m')
    end.

Declare Scope py_scope.
Delimit Scope py_scope with py.
Notation "x <- c ;; k" := (bind c (fun x => k))
  (at level 61, c at next level, right associativity) : py_scope.
Notation "c ;; k" := (bind c (fun _ => k))
  (at level 61, right associativity) : py_scope.
Local Open Scope py_scope.

Definition get_state : M value := fun m => (Ok (state m), m).
Definition set_state (s : value) : M unit := fun m => (Ok tt, with_state s m).
Definition print (l : line) : M unit :=
  fun m => (Ok tt, with_console (console m ++ [l]) m).
(** [datetime.now().isoformat()] *)
Definition now : M str :=
  fun m => (Ok (clock m (ticks m)), with_ticks (S (ticks m)) m).

Definition any_exception (e : exn) : bool := true.

(** *** class BlogSparkAgent *)

(** The API call: never raises, answers text (the completion or a text
    starting with "API Error: "). *)
Definition generate_content (p : prompt) : M str :=
  fun m => (Ok (oracle m (List.length (calls m)) p),
            with_calls (calls m ++ [p]) m).

(** [with open(self.state_file, "r") as f: json.load(f)] *)
Definition json_load : M value :=
  fun m =>
    match fs m with
    | Missing => (Raise FileNotFoundError, m)
    | Unreadable e => (Raise e, m)
    | Text s =>
        match json_loads s with
        | Some v => (Ok v, m)
        | None => (Raise JSONDecodeError, m)
        end
    | Dump v => (Ok v, m)
    end.

Definition load_state : M value :=
  try_except json_load
    (fun e => match e with
              | FileNotFoundError | JSONDecodeError => true
              | _ => false
              end)
    (fun _ => ret VNone).

Definition save_state : M unit :=
  fun m => (Ok tt, with_fs (Dump (state m)) m).

Definition default_state : value :=
  VDict [ (lit "history", VList []);
          (lit "niches", VList []);
          (lit "user_preferences",
             VDict [ (lit "tone", VStr (lit "friendly"));
                     (lit "complexity", VStr (lit "medium")) ]) ].

Definition __init__ : M unit :=
  st <- load_state ;;
  set_state st ;;
  if negb (truthy st) then
    set_state default_state ;;
    save_state
  else ret tt.

Definition fallback_analysis : value :=
  VDict [ (lit "topic", VStr (lit "general"));
          (lit "tone", VStr (lit "neutral"));
          (lit "constraints", VStr []) ].

Definition input_understanding (user_input : str) : M value :=
  try_except
    (response <- generate_content (UnderstandingPrompt user_input) ;;
     match json_loads (strip response) with
     | Some v => ret v
     | None => raise JSONDecodeError
     end)
    any_exception
    (fun e => print (ErrorParsingInput e) ;; ret fallback_analysis).

(** [if key not in self.state: self.state[key] = []] *)
Definition ensure_key (key : str) : M unit :=
  st <- get_state ;;
  present <- lift (py_contains (VStr key) st) ;;
  if present then ret tt
  else st' <- lift (py_setitem st key (VList [])) ;; set_state st'.

(** [self.state[key].append(x)]: the list under [key] grows in place. *)
Definition append_at (key : str) (x : value) : M unit :=
  st <- get_state ;;
  c <- lift (py_getitem st key) ;;
  c' <- lift (py_append c x) ;;
  st' <- lift (py_setitem st key c') ;;
  set_state st'.

(** [c[-3:]] *)
Definition py_last3 (c : value) : result value :=
  match c with
  | VList l => Ok (VList (last3 l))
  | VStr s => Ok (VStr (last3 s))
  | _ => Raise TypeError
  end.

Definition update_state (analysis : value) : M unit :=
  (* Ensure state has required keys *)
  ensure_key (lit "niches") ;;
  ensure_key (lit "history") ;;
  (* Update niches *)
  topic <- lift (py_get analysis (lit "topic") (VStr [])) ;;
  (if truthy topic then
     st <- get_state ;;
     niches <- lift (py_getitem st (lit "niches")) ;;
     present <- lift (py_contains topic niches) ;;
     if present then ret tt else append_at (lit "niches") topic
   else ret tt) ;;
  (* Update history: the target and its append method are looked up
     before the arguments are evaluated *)
  st <- get_state ;;
  history <- lift (py_getitem st (lit "history")) ;;
  lift (py_append_method history) ;;
  timestamp <- now ;;
  user_input <- lift (py_get analysis (lit "user_input") (VStr [])) ;;
  append_at (lit "history")
    (VDict [ (lit "timestamp", VStr timestamp);
             (lit "analysis", analysis);
             (lit "user_input", user_input) ]) ;;
  (* Keep only last 3 prompts *)
  st <- get_state ;;
  history <- lift (py_getitem st (lit "history")) ;;
  kept <- lift (py_last3 history) ;;
  st' <- lift (py_setitem st (lit "history") kept) ;;
  set_state st' ;;
  save_state.

(** [[f(h) for h in items]], stopping at the first exception *)
Fixpoint comprehension (f : value -> result value) (items : list value)
  : result (list value) :=
  match items with
  | [] => Ok []
  | h :: rest =>
      match f h with
      | Raise e => Raise e
      | Ok x =>
          match comprehension f rest with
          | Raise e => Raise e
          | Ok xs => Ok (x :: xs)
          end
      end
  end.

(** [h['analysis'].get('topic', '')] *)
Definition turn_topic (h : value) : result value :=
  match py_getitem h (lit "analysis") with
  | Raise e => Raise e
  | Ok a => py_get a (lit "topic") (VStr [])
  end.

(** The items of [', '.join(niches)], which must all be [str] *)
Fixpoint all_str (items : list value) : result (list str) :=
  match items with
  | [] => Ok []
  | VStr s :: rest =>
      match all_str rest with
      | Raise e => Raise e
      | Ok ss => Ok (s :: ss)
      end
  | _ :: _ => Raise TypeError
  end.

Definition join_values (sep : str) (c : value) : result str :=
  match py_iter c with
  | Raise e => Raise e
  | Ok items =>
      match all_str items with
      | Raise e => Raise e
      | Ok ss => Ok (join sep ss)
      end
  end.

Definition plan_task (analysis : value) : M str :=
  st <- get_state ;;
  niches <- lift (py_get st (lit "niches") (VList [])) ;;
  history <- lift (py_get st (lit "history") (VList [])) ;;
  items <- lift (py_iter history) ;;
  history_topics <- lift (comprehension turn_topic items) ;;
  topic <- lift (py_get analysis (lit "topic") (VStr (lit "general"))) ;;
  tone <- lift (py_get analysis (lit "tone") (VStr (lit "neutral"))) ;;
  constraints <- lift (py_get analysis (lit "constraints")
                         (VStr (lit "none"))) ;;
  joined <- lift (join_values (lit ", ") niches) ;;
  tone' <- lift (py_get analysis (lit "tone") VNone) ;;
  generate_content
    (PlanningPrompt topic tone constraints joined history_topics
       (py_eq tone' (VStr (lit "casual")))).

Definition generate_output (plan : str) : M str :=
  st <- get_state ;;
  prefs <- lift (py_get st (lit "user_preferences") (VDict [])) ;;
  tone <- lift (py_get prefs (lit "tone") (VStr (lit "friendly"))) ;;
  generate_content (OutputPrompt plan tone).

Definition run (user_input : str) : M str :=
  analysis <- input_understanding user_input ;;
  analysis <- lift (py_setitem analysis (lit "user_input")
                      (VStr user_input)) ;;
  update_state analysis ;;
  plan <- plan_task analysis ;;
  generate_output plan.

(** *** The command-line loop *)

Inductive flow := Continue | Break.

(** One turn of [while True:] on the line [input("You: ")] returned. *)
Definition loop_body (user_input : str) : M flow :=
  try_except
    (if existsb (str_eqb (lower user_input)) [lit "exit"; lit "quit"]
     then ret Break
     else
       match strip user_input with
       | [] => print PleaseEnter ;; ret Continue
       | _ :: _ =>
           response <- run user_input ;;
           print (Reply response) ;;
           ret Continue
       end)
    any_exception
    (fun e => print (ErrorLine e) ;; ret Continue).

(** The loop over the lines typed so far; [Continue] when they are used
    up and the loop waits for the next one. *)
Fixpoint loop (lines : list str) : M flow :=
  match lines with
  | [] => ret Continue
  | l :: rest =>
      f <- loop_body l ;;
      match f with
      | Break => ret Break
      | Continue => loop rest
      end
  end.

Definition main (lines : list str) : M flow :=
  __init__ ;;
  print Banner ;;
  f <- loop lines ;;
  match f with
  | Break => print SessionEnded ;; ret Break
  | Continue => ret Continue
  end.

(** A machine before the program starts. *)
Definition boot (o : nat -> prompt -> str) (c : nat -> str) (f : file)
  : machine :=
  Machine o c f [] 0 [] VNone.

(* ===================================================================== *)
(** ** Vocabulary of the statements *)
(* ===================================================================== *)

(** [a.get(k, default)] on the items of a dict *)
Definition get_or (k : str) (default : value) (a : list (str * value))
  : value :=
  match dict_get k a with
  | Some v => v
  | None => default
  end.

(** The list stored under [k], empty when there is none. *)
Definition list_at (k : str) (d : list (str * value)) : list value :=
  match dict_get k d with
  | Some (VList l) => l
  | _ => []
  end.

Definition niches_of (st : value) : list value :=
  match st with
  | VDict d => list_at (lit "niches") d
  | _ => []
  end.

Definition history_of (st : value) : list value :=
  match st with
  | VDict d => list_at (lit "history") d
  | _ => []
  end.

(** The schema of the state document as far as [update_state] depends on
    it: a dict whose [niches] and [history], when present, are lists. *)
Definition absent_or_list (o : option value) : bool :=
  match o with
  | None | Some (VList _) => true
  | Some _ => false
  end.

Definition updatable (st : value) : bool :=
  match st with
  | VDict d =>
      absent_or_list (dict_get (lit "niches") d)
      && absent_or_list (dict_get (lit "history") d)
  | _ => false
  end.


Definition is_turn (h : value) : bool :=
  match h with
  | VDict t =>
      match dict_get (lit "analysis") t with
      | Some (VDict _) => true
      | _ => false
      end
  | _ => false
  end.


(** The turn [update_state] appends for the analysis dict [a] at clock
    text [ts]. *)
Definition turn (ts : str) (a : list (str * value)) : value :=
  VDict [ (lit "timestamp", VStr ts);
          (lit "analysis", VDict a);
          (lit "user_input", get_or (lit "user_input") (VStr []) a) ].

(** The niches after a topic has been considered. *)
Definition merged (topic : value) (niches : list value) : list value :=
  if truthy topic && negb (existsb (py_eq topic) niches)
  then niches ++ [topic] else niches.

(** [run] on each input in turn, as the loop does with the lines it
    accepts; stops at the first exception. *)
Fixpoint requests (inputs : list str) : M (list str) :=
  match inputs with
  | [] => ret []
  | u :: rest =>
      r <- run u ;;
      rs <- requests rest ;;
      ret (r :: rs)
  end.

(** [update_state] on each analysis in turn. *)
Fixpoint update_all (analyses : list value) : M unit :=
  match analyses with
  | [] => ret tt
  | a :: rest => update_state a ;; update_all rest
  end.

(** A line the loop hands to [run]: neither a command to leave nor
    blank. *)
Definition accepted (l : str) : Prop :=
  existsb (str_eqb (lower l)) [lit "exit"; lit "quit"] = false
  /\ strip l <> [].

(** Two machines that differ in what has been printed at most. *)
Definition same_but_console (m1 m2 : machine) : Prop :=
  oracle m1 = oracle m2 /\ clock m1 = clock m2 /\ fs m1 = fs m2
  /\ calls m1 = calls m2 /\ ticks m1 = ticks m2 /\ state m1 = state m2.

(** A computation that never looks at what has been printed. *)
Definition console_blind (A : Type) (c : M A) : Prop :=
  forall m1 m2, same_but_console m1 m2 ->
    fst (c m1) = fst (c m2)
    /\ same_but_console (snd (c m1)) (snd (c m2)).

(** The turns of consecutive requests, from clock reading [t] on: request
    number [i] is stamped with reading [t + i] and carries its own input. *)
Inductive turns_from (c : nat -> str) : nat -> list str -> list value -> Prop :=
| turns_nil : forall t, turns_from c t [] []
| turns_cons : forall t u us a ts,
    dict_get (lit "user_input") a = Some (VStr u) ->
    turns_from c (S t) us ts ->
    turns_from c t (u :: us) (turn (c t) a :: ts).

(** Topics in the order of their first appearance, without the empty
    one and without those already [seen]. *)
Fixpoint distinct (seen : list str) (topics : list str) : list str :=
  match topics with
  | [] => []
  | t :: rest =>
      if match t with [] => true | _ => false end
         || existsb (str_eqb t) seen
      then distinct seen rest
      else t :: distinct (seen ++ [t]) rest
  end.

(** The strings among the entries of a list. *)
Fixpoint strings (l : list value) : list str :=
  match l with
  | [] => []
  | VStr s :: rest => s :: strings rest
  | _ :: rest => strings rest
  end.


(** A quoted JSON string without escapes, and small documents, for the
    examples. *)
Definition quoted (s : string) : str := (34 :: lit s ++ [34])%N.

(** The state [update_state] leaves, as a function of the clock text, the
    analysis dict and the state dict before. *)
Definition ensure (k : str) (d : list (str * value)) : list (str * value) :=
  if dict_has k d then d else dict_set k (VList []) d.

Definition updated (ts : str) (a d : list (str * value))
  : list (str * value) :=
  let d2 := ensure (lit "history") (ensure (lit "niches") d) in
  let d3 := dict_set (lit "niches")
              (VList (merged (get_or (lit "topic") (VStr []) a)
                             (list_at (lit "niches") d2))) d2 in
  dict_set (lit "history")
    (VList (last3 (list_at (lit "history") d3 ++ [turn ts a]))) d3.

(** The topic a well-formed turn shows to the planner. *)
Definition topic_in (h : value) : value :=
  match h with
  | VDict t =>
      match dict_get (lit "analysis") t with
      | Some (VDict a) => get_or (lit "topic") (VStr []) a
      | _ => VStr []
      end
  | _ => VStr []
  end.

(** The planning prompt for the analysis dict [a], with the niches text
    and the history topics given. *)
Definition planning_prompt (a : list (str * value)) (joined : str)
                           (topics : list value) : prompt :=
  PlanningPrompt
    (get_or (lit "topic") (VStr (lit "general")) a)
    (get_or (lit "tone") (VStr (lit "neutral")) a)
    (get_or (lit "constraints") (VStr (lit "none")) a)
    joined topics
    (py_eq (get_or (lit "tone") VNone a) (VStr (lit "casual"))).

(** The tone the third stage asks for. *)
Definition stored_tone (d : list (str * value)) : result value :=
  match dict_get (lit "user_preferences") d with
  | None => Ok (VStr (lit "friendly"))
  | Some prefs => py_get prefs (lit "tone") (VStr (lit "friendly"))
  end.

(** The analysis the first stage answers. *)
Definition understood (u : str) (m : machine) : value :=
  match json_loads (strip (oracle m (List.length (calls m))
                             (UnderstandingPrompt u))) with
  | Some v => v
  | None => fallback_analysis
  end.

(** The fallback analysis once [run] has attached the raw input. *)
Definition fallback_with (u : str) : list (str * value) :=
  [ (lit "topic", VStr (lit "general"));
    (lit "tone", VStr (lit "neutral"));
    (lit "constraints", VStr []);
    (lit "user_input", VStr u) ].

(** What [json.load] finds in the state file, when it finds a value. *)
Definition stored (m : machine) : option value :=
  match fs m with
  | Text s => json_loads s
  | Dump v => Some v
  | Missing | Unreadable _ => None
  end.

(** The two classes [load_state] catches. *)
Definition caught_by_load_state (e : exn) : bool :=
  match e with
  | FileNotFoundError | JSONDecodeError => true
  | _ => false
  end.

(** A line that makes the loop stop. *)
Definition is_command (l : str) : bool :=
  existsb (str_eqb (lower l)) [lit "exit"; lit "quit"].

(** The characters a JSON text can begin with: a quote, a brace, a
    bracket, a minus sign, a digit, or the first letter of [true],
    [false], [null], [NaN], [Infinity]. *)
Definition json_start (c : N) : bool :=
  ((c =? 34) || (c =? 123) || (c =? 91) || (c =? 45) || is_digit c
   || (c =? 116) || (c =? 102) || (c =? 110) || (c =? 78) || (c =? 73))%N.

(** A text that cannot be the start of a JSON document: empty, or
    beginning with a character no JSON value begins with. *)
Definition no_json_start (s : str) : bool :=
  match s with
  | [] => true
  | c :: _ => negb (json_start c)
  end.


(** The entries of the state other than [niches] and [history] are the
    same in two states. *)
Definition same_other_entries (st st' : value) : Prop :=
  st' = st \/
  exists d d', st = VDict d /\ st' = VDict d'
    /\ forall k, str_eqb k (lit "niches") = false ->
                 str_eqb k (lit "history") = false ->
                 dict_get k d' = dict_get k d.

(** The tone the renderer shows for a state. *)
Definition tone_shown (st : value) (tone : value) : Prop :=
  match st with
  | VDict d => stored_tone d = Ok tone
  | _ => False
  end.

(** What the agent may do to a machine: leave the service and the clock
    alone, send prompts (an output prompt only with the tone stored in
    the state), read the clock, print, and change the state in its
    [niches] and [history] entries only. *)
Definition agent_step (m m' : machine) : Prop :=
  oracle m' = oracle m /\ clock m' = clock m
  /\ (exists sent, calls m' = calls m ++ sent
        /\ forall plan tone, In (OutputPrompt plan tone) sent ->
                             tone_shown (state m) tone)
  /\ ticks m <= ticks m'
  /\ (exists printed, console m' = console m ++ printed)
  /\ same_other_entries (state m) (state m').

(** A step that sends nothing. *)
Definition silent_step (m m' : machine) : Prop :=
  oracle m' = oracle m /\ calls m' = calls m.

(** A computation all of whose outcomes are related to its start. *)
Definition within (A : Type) (R : machine -> machine -> Prop) (c : M A)
  : Prop :=
  forall m r m', c m = (r, m') -> R m m'.

(** The memory and the state file agree, on a state of the schema
    [update_state] expects. *)
Definition in_step (m : machine) : Prop :=
  updatable (state m) = true /\ fs m = Dump (state m).

(* ===================================================================== *)
(** ** Machines for the examples *)
(* ===================================================================== *)

(** A service that is down: every call answers the error sentinel. *)
Definition offline : nat -> prompt -> str :=
  fun _ _ => lit "API Error: 503 Server Error".

(** A service that cooperates: the intent it extracts has the user's text
    as its topic, the plan is a fixed sketch, the output is a fixed
    card. *)
Definition helpful : nat -> prompt -> str :=
  fun _ p =>
    match p with
    | UnderstandingPrompt u =>
        lit "{" ++ quoted "topic" ++ lit ": " ++ (34%N :: u ++ [34%N])
        ++ lit ", " ++ quoted "tone" ++ lit ": " ++ quoted "casual"
        ++ lit ", " ++ quoted "constraints" ++ lit ": " ++ quoted "short"
        ++ lit "}"
    | PlanningPrompt _ _ _ _ _ _ => lit "Hook + Question + Challenge"
    | OutputPrompt _ _ => lit "Prompt Idea: ..."
    end.

(** A service whose answer to the first stage is valid JSON but not an
    object. *)
Definition listing : nat -> prompt -> str :=
  fun _ _ => lit "[]".

(** A service whose answer to the first stage is an object with a
    number for a topic, and plain text afterwards. *)
Definition numbering : nat -> prompt -> str :=
  fun _ p =>
    match p with
    | UnderstandingPrompt _ => lit "{" ++ quoted "topic" ++ lit ": 5}"
    | _ => lit "Hook + Question + Challenge"
    end.

(** A service that wraps its JSON in a Markdown code fence. *)
Definition fenced : nat -> prompt -> str :=
  fun _ p =>
    match p with
    | UnderstandingPrompt u =>
        lit "```json" ++ [10%N] ++ lit "{" ++ quoted "topic" ++ lit ": "
        ++ quoted "owls" ++ lit "}" ++ [10%N] ++ lit "```"
    | _ => lit "Hook + Question + Challenge"
    end.

(** A clock whose readings differ: one second apart. *)
Definition seconds : nat -> str :=
  fun n => lit "2024-05-01T12:00:0" ++ [(48 + N.of_nat n)%N].

(** The machine right after the agent was created without a state
    file. *)
Definition fresh (o : nat -> prompt -> str) (c : nat -> str) : machine :=
  Machine o c (Dump default_state) [] 0 [] default_state.

(* ===================================================================== *)
(** ** Basic facts *)
(* ===================================================================== *)

Arguments lit : simpl never.

Lemma str_eqb_refl (s : str) : str_eqb s s = true.
Proof.
  induction s as [|c s IH]; [reflexivity|].
  cbn. now rewrite N.eqb_refl, IH.
Qed.

Lemma str_eqb_eq (s t : str) : str_eqb s t = true <-> s = t.
Proof.
  split; [|intros ->; apply str_eqb_refl].
  revert t. induction s as [|c s IH]; intros [|c' t]; cbn; try easy.
  intros H. apply andb_true_iff in H as [Hc Hs].
  apply N.eqb_eq in Hc. apply IH in Hs. now subst.
Qed.

Lemma str_eqb_sym (s t : str) : str_eqb s t = str_eqb t s.
Proof.
  destruct (str_eqb s t) eqn:E.
  - apply str_eqb_eq in E. subst. symmetry. apply str_eqb_refl.
  - destruct (str_eqb t s) eqn:E'; [|reflexivity].
    apply str_eqb_eq in E'. subst. now rewrite str_eqb_refl in E.
Qed.

Lemma dict_get_set_same k v d : dict_get k (dict_set k v d) = Some v.
Proof.
  induction d as [|[k' v'] d IH]; cbn.
  - now rewrite str_eqb_refl.
  - destruct (str_eqb k k') eqn:E; cbn; rewrite E; [reflexivity|exact IH].
Qed.

Lemma dict_get_set_other k k' v d :
  str_eqb k k' = false -> dict_get k (dict_set k' v d) = dict_get k d.
Proof.
  intros Hk. induction d as [|[k0 v0] d IH]; cbn.
  - now rewrite Hk.
  - destruct (str_eqb k' k0) eqn:E; cbn.
    + apply str_eqb_eq in E. subst k0. now rewrite Hk.
    + destruct (str_eqb k k0); [reflexivity|exact IH].
Qed.

Lemma dict_set_set k v w d : dict_set k w (dict_set k v d) = dict_set k w d.
Proof.
  induction d as [|[k' v'] d IH]; cbn.
  - now rewrite str_eqb_refl.
  - destruct (str_eqb k k') eqn:E; cbn; rewrite E; [reflexivity|].
    now rewrite IH.
Qed.

Lemma dict_set_same k v d : dict_get k d = Some v -> dict_set k v d = d.
Proof.
  induction d as [|[k' v'] d IH]; cbn; [discriminate|].
  destruct (str_eqb k k') eqn:E.
  - now intros [= ->].
  - intros H. now rewrite IH.
Qed.

Lemma list_at_set_same k l d : list_at k (dict_set k (VList l) d) = l.
Proof. unfold list_at. now rewrite dict_get_set_same. Qed.

Lemma list_at_set_other k k' v d :
  str_eqb k k' = false -> list_at k (dict_set k' v d) = list_at k d.
Proof. intros H. unfold list_at. now rewrite dict_get_set_other. Qed.

(** What [ensure] does to a lookup. *)
Lemma dict_get_ensure_same k d :
  absent_or_list (dict_get k d) = true ->
  dict_get k (ensure k d) = Some (VList (list_at k d)).
Proof.
  unfold ensure, dict_has, list_at.
  destruct (dict_get k d) as [[]|] eqn:E; cbn; try discriminate; intros _.
  - exact E.
  - apply dict_get_set_same.
Qed.

Lemma dict_get_ensure_other k k' d :
  str_eqb k k' = false -> dict_get k (ensure k' d) = dict_get k d.
Proof.
  intros H. unfold ensure. destruct (dict_has k' d); [reflexivity|].
  now apply dict_get_set_other.
Qed.

(** Equality with a string is equality of strings. *)
Lemma py_eq_str s x : py_eq (VStr s) x = true <-> x = VStr s.
Proof.
  destruct x; cbn; try (split; [discriminate|intros [=]]).
  rewrite str_eqb_eq. split; [now intros ->|now intros [= ->]].
Qed.

(** *** The decoder's budget

    Every scanner leaves less text than it was given, so the budget
    [json_loads] starts with is never used up: [None] always stands for
    a refusal of the text. *)

Lemma skip_ws_le s : List.length (skip_ws s) <= List.length s.
Proof.
  induction s as [|c s IH]; cbn; [lia|].
  destruct (is_json_ws c); cbn; lia.
Qed.

Lemma take_digits_le s : forall acc n v k r,
  take_digits acc n s = (v, k, r) -> List.length r <= List.length s.
Proof.
  induction s as [|c s IH]; cbn; intros acc n v k r.
  - intros [= _ _ <-]. cbn. lia.
  - destruct (is_digit c).
    + intros H. apply IH in H. lia.
    + intros [= _ _ <-]. cbn. lia.
Qed.

Lemma hex4_length s u r : hex4 s = Some (u, r) -> List.length s = 4 + List.length r.
Proof.
  unfold hex4. destruct s as [|a [|b [|c [|d s]]]]; try discriminate.
  destruct (hex_digit a), (hex_digit b), (hex_digit c), (hex_digit d);
    try discriminate.
  now intros [= _ <-].
Qed.

Lemma scanstring_aux_lt n : forall s acc x r,
  scanstring_aux n s acc = Some (x, r) -> List.length r < List.length s.
Proof.
  induction n as [|n IH]; intros s acc x r; cbn [scanstring_aux];
    [discriminate|].
  destruct s as [|c s]; [discriminate|].
  destruct (c =? 34)%N; [intros [= _ <-]; cbn; lia|].
  destruct (c =? 92)%N.
  - destruct s as [|e r1]; [discriminate|].
    destruct (e =? 117)%N.
    + destruct (hex4 r1) as [[u r2]|] eqn:E1; [|discriminate].
      apply hex4_length in E1.
      assert (D : forall acc', scanstring_aux n r2 acc' = Some (x, r) ->
                               List.length r < List.length (c :: e :: r1)).
      { intros acc' H. apply IH in H. cbn [List.length]. lia. }
      destruct ((55296 <=? u) && (u <=? 56319))%N; [|apply D].
      destruct r2 as [|b1 [|b2 r3]]; try apply D.
      destruct ((b1 =? 92) && (b2 =? 117))%N; [|apply D].
      destruct (hex4 r3) as [[u2 r4]|] eqn:E2; [|discriminate].
      apply hex4_length in E2.
      destruct ((56320 <=? u2) && (u2 <=? 57343))%N; [|apply D].
      intros H. apply IH in H. cbn [List.length] in *. lia.
    + destruct (simple_escape e); [|discriminate].
      intros H. apply IH in H. cbn [List.length]. lia.
  - destruct (c <=? 31)%N; [discriminate|].
    intros H. apply IH in H. cbn [List.length]. lia.
Qed.

Lemma scanstring_lt s x r :
  scanstring s = Some (x, r) -> List.length r < List.length s.
Proof. apply scanstring_aux_lt. Qed.

Lemma starts_with_length p s :
  starts_with p s = true -> List.length p <= List.length s.
Proof.
  revert s. induction p as [|x p IH]; intros [|y s]; cbn;
    try discriminate; try lia.
  intros H. apply andb_true_iff in H as [_ H]. apply IH in H. lia.
Qed.

Lemma literal_lt word v s v' r :
  word <> [] -> literal word v s = POk v' r ->
  List.length r < List.length s.
Proof.
  intros Hw. unfold literal.
  destruct (starts_with word s) eqn:E; [|discriminate].
  intros [= _ <-]. apply starts_with_length in E.
  rewrite length_skipn. destruct word; [easy|]. cbn [List.length] in *. lia.
Qed.

Lemma literal_not_fuel word v s : literal word v s <> PFuel.
Proof. unfold literal. now destruct (starts_with word s). Qed.

Lemma number_sign_le s neg s0 :
  number_sign s = (neg, s0) -> List.length s0 <= List.length s.
Proof.
  unfold number_sign. destruct s as [|c r]; [now intros [= _ <-]|].
  destruct (c =? 45)%N; intros [= _ <-]; cbn; lia.
Qed.

Lemma number_int_lt s ip s1 :
  number_int s = Some (ip, s1) -> List.length s1 < List.length s.
Proof.
  unfold number_int. destruct s as [|c r]; [discriminate|].
  destruct (is_digit c) eqn:D; [|discriminate].
  destruct (c =? 48)%N; [intros [= _ <-]; cbn; lia|].
  cbn [take_digits]. rewrite D.
  destruct (take_digits _ 1 r) as [[v k] rest] eqn:E.
  intros [= _ <-]. apply take_digits_le in E. cbn. lia.
Qed.

Lemma number_frac_le ip s v n rest :
  number_frac ip s = Some (v, n, rest) ->
  List.length rest <= List.length s.
Proof.
  unfold number_frac. destruct s as [|dot [|c1 r]]; try discriminate.
  destruct (_ && _); [|discriminate].
  intros H.
  assert (H' : take_digits ip 0 (c1 :: r) = (v, n, rest)) by congruence.
  apply take_digits_le in H'. cbn [List.length] in *. lia.
Qed.

Lemma number_exp_le s ex rest :
  number_exp s = Some (ex, rest) -> List.length rest <= List.length s.
Proof.
  unfold number_exp. destruct s as [|e [|c1 r1]]; try discriminate.
  destruct (_ || _)%N; [|discriminate].
  destruct (match r1 with [] => _ | _ :: _ => _ end) as [eneg s'] eqn:Es.
  assert (Hs : List.length s' <= List.length (c1 :: r1)).
  { destruct r1; [now injection Es as _ <-|].
    destruct (c1 =? 45)%N; [injection Es as _ <-; cbn; lia|].
    destruct (c1 =? 43)%N; injection Es as _ <-; cbn; lia. }
  destruct (take_digits 0 0 s') as [[v n] rest'] eqn:E.
  destruct n; [discriminate|]. intros [= _ <-].
  apply take_digits_le in E. cbn [List.length] in *. lia.
Qed.

Lemma match_number_lt s v r :
  match_number s = POk v r -> List.length r < List.length s.
Proof.
  unfold match_number.
  destruct (number_sign s) as [neg s0] eqn:E0.
  apply number_sign_le in E0.
  destruct (number_int s0) as [[ip s1]|] eqn:E1; [|discriminate].
  apply number_int_lt in E1.
  destruct (number_frac ip s1) as [[[d n] rest]|] eqn:E2.
  - apply number_frac_le in E2.
    destruct (number_exp rest) as [[ex s3]|] eqn:E3.
    + apply number_exp_le in E3. intros [= _ <-]. lia.
    + intros [= _ <-]. lia.
  - destruct (number_exp s1) as [[ex s3]|] eqn:E3.
    + apply number_exp_le in E3. intros [= _ <-]. lia.
    + intros [= _ <-]. lia.
Qed.

Lemma match_number_not_fuel s : match_number s <> PFuel.
Proof.
  unfold match_number.
  destruct (number_sign s) as [neg s0].
  destruct (number_int s0) as [[ip s1]|]; [|discriminate].
  destruct (number_frac ip s1) as [[[d n] rest]|];
    destruct (number_exp _) as [[ex s3]|]; discriminate.
Qed.

(** With a budget above twice the length of the text, no scanner runs
    out of it, and each leaves less than it was given. *)
Lemma scanners_within_budget fuel :
  (forall s, 2 * List.length s < fuel ->
     scan_once fuel s <> PFuel
     /\ forall v r, scan_once fuel s = POk v r ->
                    List.length r < List.length s)
  /\ (forall s acc, 2 * List.length s + 2 <= fuel ->
        parse_items fuel s acc <> PFuel
        /\ forall v r, parse_items fuel s acc = POk v r ->
                       List.length r < List.length s)
  /\ (forall s acc, 2 * List.length s + 2 <= fuel ->
        parse_members fuel s acc <> PFuel
        /\ forall v r, parse_members fuel s acc = POk v r ->
                       List.length r < List.length s).
Proof.
  induction fuel as [|fuel (IHs & IHi & IHm)].
  - repeat split; intros; lia.
  - split; [|split].
    + (* scan_once *)
      intros s Hf. cbn [scan_once].
      destruct s as [|c r]; [split; [discriminate|discriminate]|].
      cbn [List.length] in Hf.
      destruct (c =? 34)%N.
      { destruct (scanstring r) as [[x rest]|] eqn:E;
          [|split; discriminate].
        apply scanstring_lt in E. split; [discriminate|].
        intros v r' [= _ <-]. cbn. lia. }
      destruct (c =? 123)%N.
      { pose proof (skip_ws_le r) as Hw.
        destruct (skip_ws r) as [|c1 r1]; [split; discriminate|].
        cbn [List.length] in Hw.
        destruct (c1 =? 125)%N.
        - split; [discriminate|]. intros v r' [= _ <-]. cbn. lia.
        - destruct (IHm (c1 :: r1) []) as [H1 H2];
            [cbn [List.length]; lia|].
          split; [exact H1|]. intros v r' H. apply H2 in H.
          cbn [List.length] in *. lia. }
      destruct (c =? 91)%N.
      { pose proof (skip_ws_le r) as Hw.
        destruct (skip_ws r) as [|c1 r1]; [split; discriminate|].
        cbn [List.length] in Hw.
        destruct (c1 =? 93)%N.
        - split; [discriminate|]. intros v r' [= _ <-]. cbn. lia.
        - destruct (IHi (c1 :: r1) []) as [H1 H2];
            [cbn [List.length]; lia|].
          split; [exact H1|]. intros v r' H. apply H2 in H.
          cbn [List.length] in *. lia. }
      repeat match goal with
      | |- context [if ?b then literal ?w ?v ?t else _] =>
          destruct b;
          [split; [apply literal_not_fuel|];
           intros v' r'; apply literal_lt; discriminate|]
      end.
      split; [apply match_number_not_fuel|].
      intros v r'. apply match_number_lt.
    + (* parse_items *)
      intros s acc Hf. cbn [parse_items].
      destruct (IHs s ltac:(lia)) as [H1 H2].
      destruct (scan_once fuel s) as [v rest| |] eqn:E;
        [|split; discriminate|easy].
      specialize (H2 _ _ eq_refl).
      pose proof (skip_ws_le rest) as Hw.
      destruct (skip_ws rest) as [|c r]; [split; discriminate|].
      cbn [List.length] in Hw.
      destruct (c =? 93)%N.
      { split; [discriminate|]. intros v' r' [= _ <-]. lia. }
      destruct (c =? 44)%N; [|split; discriminate].
      pose proof (skip_ws_le r) as Hw'.
      destruct (IHi (skip_ws r) (v :: acc)) as [H3 H4]; [lia|].
      split; [exact H3|]. intros v' r' H. apply H4 in H. lia.
    + (* parse_members *)
      intros s acc Hf. cbn [parse_members].
      destruct s as [|q r0]; [split; discriminate|].
      cbn [List.length] in Hf.
      destruct (q =? 34)%N; [|split; discriminate].
      destruct (scanstring r0) as [[key r1]|] eqn:E; [|split; discriminate].
      apply scanstring_lt in E.
      pose proof (skip_ws_le r1) as Hw1.
      destruct (skip_ws r1) as [|c r2]; [split; discriminate|].
      cbn [List.length] in Hw1.
      destruct (c =? 58)%N; [|split; discriminate].
      pose proof (skip_ws_le r2) as Hw2.
      destruct (IHs (skip_ws r2) ltac:(lia)) as [H1 H2].
      destruct (scan_once fuel (skip_ws r2)) as [v rest| |] eqn:Ev;
        [|split; discriminate|easy].
      specialize (H2 _ _ eq_refl).
      pose proof (skip_ws_le rest) as Hw3.
      destruct (skip_ws rest) as [|c' r3]; [split; discriminate|].
      cbn [List.length] in Hw3.
      destruct (c' =? 125)%N.
      { split; [discriminate|]. intros v' r' [= _ <-].
        cbn [List.length]. lia. }
      destruct (c' =? 44)%N; [|split; discriminate].
      pose proof (skip_ws_le r3) as Hw4.
      destruct (IHm (skip_ws r3) (dict_set key v acc)) as [H3 H4]; [lia|].
      split; [exact H3|]. intros v' r' H. apply H4 in H.
      cbn [List.length]. lia.
Qed.

(** [json_loads] never answers [None] for want of budget. *)
Lemma decoder_budget_suffices s :
  scan_once (2 * List.length s + 1) (skip_ws s) <> PFuel.
Proof.
  apply scanners_within_budget. pose proof (skip_ws_le s). lia.
Qed.

(** Comparisons of two literal keys are computed. *)
Ltac keys :=
  repeat match goal with
  | |- context [str_eqb (lit ?x) (lit ?y)] =>
      let b := eval vm_compute in (str_eqb (lit x) (lit y)) in
      change (str_eqb (lit x) (lit y)) with b
  end;
  cbv iota.

(** *** Stepping through a computation *)

Ltac fields :=
  cbn [with_state with_fs with_ticks with_calls with_console
       oracle clock fs calls ticks console state].

Lemma bind_ok (A B : Type) (c : M A) (k : A -> M B) m a m1 :
  c m = (Ok a, m1) -> bind c k m = k a m1.
Proof. intros H. unfold bind. now rewrite H. Qed.

Lemma bind_raise (A B : Type) (c : M A) (k : A -> M B) m e m1 :
  c m = (Raise e, m1) -> bind c k m = (Raise e, m1).
Proof. intros H. unfold bind. now rewrite H. Qed.

Lemma bind_inv (A B : Type) (c : M A) (k : A -> M B) m b m' :
  bind c k m = (Ok b, m') ->
  exists a m1, c m = (Ok a, m1) /\ k a m1 = (Ok b, m').
Proof.
  unfold bind. destruct (c m) as [[a|e] m1]; [|discriminate].
  intros H. now exists a, m1.
Qed.

Lemma bind_lift (A B : Type) (a : A) (k : A -> M B) m :
  bind (lift (Ok a)) k m = k a m.
Proof. reflexivity. Qed.

Lemma bind_ret (A B : Type) (a : A) (k : A -> M B) m :
  bind (ret a) k m = k a m.
Proof. reflexivity. Qed.

Lemma bind_get_state (B : Type) (k : value -> M B) m :
  bind get_state k m = k (state m) m.
Proof. reflexivity. Qed.

Lemma bind_set_state (B : Type) s (k : unit -> M B) m :
  bind (set_state s) k m = k tt (with_state s m).
Proof. reflexivity. Qed.

Lemma py_get_dict a k v : py_get (VDict a) k v = Ok (get_or k v a).
Proof. unfold py_get, get_or. now destruct (dict_get k a). Qed.

Lemma py_getitem_dict d k v :
  dict_get k d = Some v -> py_getitem (VDict d) k = Ok v.
Proof. intros H. cbn. now rewrite H. Qed.

Lemma with_state_same m : with_state (state m) m = m.
Proof. now destruct m. Qed.

Lemma ensure_key_spec k d m :
  state m = VDict d ->
  ensure_key k m = (Ok tt, with_state (VDict (ensure k d)) m).
Proof.
  intros H. unfold ensure_key, ensure.
  rewrite bind_get_state, H. cbn [py_contains]. rewrite bind_lift.
  destruct (dict_has k d).
  - now rewrite <- H, with_state_same.
  - reflexivity.
Qed.

Lemma append_at_spec k x l d m :
  state m = VDict d ->
  dict_get k d = Some (VList l) ->
  append_at k x m =
    (Ok tt, with_state (VDict (dict_set k (VList (l ++ [x])) d)) m).
Proof.
  intros H G. unfold append_at.
  rewrite bind_get_state, H, (py_getitem_dict G), bind_lift.
  reflexivity.
Qed.

Lemma merged_cases topic l :
  merged topic l = l \/
  (merged topic l = l ++ [topic] /\ truthy topic = true
   /\ existsb (py_eq topic) l = false).
Proof.
  unfold merged. destruct (truthy topic); cbn; [|now left].
  destruct (existsb (py_eq topic) l); cbn; [now left|now right].
Qed.

(** [update_state] on an analysis dict and a state of the expected
    schema: it does not raise, reads the clock once, and leaves and
    persists the state [updated] describes. *)
Lemma update_state_spec a m d :
  state m = VDict d ->
  updatable (VDict d) = true ->
  update_state (VDict a) m =
    (Ok tt,
     let st' := VDict (updated (clock m (ticks m)) a d) in
     Machine (oracle m) (clock m) (Dump st') (calls m) (S (ticks m))
             (console m) st').
Proof.
  destruct m as [o c f cs t con st].
  cbn [state clock ticks oracle calls console].
  intros -> Hu. cbn in Hu. apply andb_true_iff in Hu as [Hn Hh].
  unfold updated.
  set (d1 := ensure (lit "niches") d).
  set (d2 := ensure (lit "history") d1).
  assert (Gn : dict_get (lit "niches") d2 = Some (VList (list_at (lit "niches") d))).
  { unfold d2. rewrite dict_get_ensure_other by reflexivity.
    now apply dict_get_ensure_same. }
  assert (Gh : dict_get (lit "history") d2 = Some (VList (list_at (lit "history") d))).
  { unfold d2. rewrite dict_get_ensure_same.
    - unfold list_at, d1. now rewrite dict_get_ensure_other by reflexivity.
    - unfold d1. now rewrite dict_get_ensure_other by reflexivity. }
  assert (Ln : list_at (lit "niches") d2 = list_at (lit "niches") d).
  { unfold list_at at 1. now rewrite Gn. }
  rewrite Ln.
  set (topic := get_or (lit "topic") (VStr []) a).
  set (d3 := dict_set (lit "niches") (VList (merged topic (list_at (lit "niches") d))) d2).
  assert (Gh3 : dict_get (lit "history") d3 = Some (VList (list_at (lit "history") d))).
  { unfold d3. now rewrite dict_get_set_other by reflexivity. }
  unfold update_state.
  erewrite bind_ok by (apply ensure_key_spec; reflexivity).
  erewrite bind_ok by (apply ensure_key_spec; reflexivity).
  fold d1 d2. cbn [with_state oracle clock fs calls ticks console state].
  rewrite py_get_dict, bind_lift. fold topic.
  (* the niches *)
  match goal with |- bind ?blk _ _ = _ =>
    assert (Hblk : blk (Machine o c f cs t con (VDict d2))
                   = (Ok tt, Machine o c f cs t con (VDict d3)))
  end.
  { unfold d3, merged. destruct (truthy topic); cbn [andb].
    - rewrite bind_get_state. cbn [state].
      rewrite (py_getitem_dict Gn), bind_lift. cbn [py_contains].
      rewrite bind_lift.
      destruct (existsb (py_eq topic) (list_at (lit "niches") d)); cbn [negb].
      + now rewrite (dict_set_same Gn).
      + now erewrite append_at_spec by (try reflexivity; exact Gn).
    - now rewrite (dict_set_same Gn). }
  rewrite (bind_ok _ Hblk). clear Hblk.
  (* the history *)
  rewrite bind_get_state. cbn [state].
  rewrite (py_getitem_dict Gh3), bind_lift. cbn [py_append_method].
  rewrite bind_lift.
  unfold now at 1. unfold bind at 1.
  cbn [with_ticks oracle clock fs calls ticks console state].
  rewrite py_get_dict, bind_lift.
  erewrite bind_ok by (apply append_at_spec; [reflexivity|exact Gh3]).
  cbn [with_state oracle clock fs calls ticks console state].
  rewrite bind_get_state. cbn [state].
  fields.
  rewrite (py_getitem_dict (dict_get_set_same _ _ _)), bind_lift.
  cbn [py_last3]. rewrite bind_lift. cbn [py_setitem]. rewrite bind_lift.
  rewrite bind_set_state. unfold save_state.
  cbn [with_state with_fs oracle clock fs calls ticks console state].
  fields. rewrite dict_set_set.
  replace (list_at (lit "history") d3) with (list_at (lit "history") d)
    by (unfold list_at at 2; now rewrite Gh3).
  reflexivity.
Qed.

(** *** What [updated] holds *)

Section Updated.

Variables (ts : str) (a d : list (str * value)).
Hypothesis Hd : updatable (VDict d) = true.

Lemma updatable_parts :
  absent_or_list (dict_get (lit "niches") d) = true /\
  absent_or_list (dict_get (lit "history") d) = true.
Proof. cbn in Hd. now apply andb_true_iff in Hd. Qed.

Lemma updated_niches :
  dict_get (lit "niches") (updated ts a d)
  = Some (VList (merged (get_or (lit "topic") (VStr []) a)
                        (list_at (lit "niches") d))).
Proof.
  destruct updatable_parts as [Hn Hh]. unfold updated.
  rewrite dict_get_set_other by reflexivity.
  rewrite dict_get_set_same. do 2 f_equal. f_equal.
  unfold list_at at 1.
  rewrite dict_get_ensure_other by reflexivity.
  now rewrite dict_get_ensure_same.
Qed.

Lemma updated_history :
  dict_get (lit "history") (updated ts a d)
  = Some (VList (last3 (list_at (lit "history") d ++ [turn ts a]))).
Proof.
  destruct updatable_parts as [Hn Hh]. unfold updated.
  rewrite dict_get_set_same. do 4 f_equal.
  rewrite list_at_set_other by reflexivity.
  unfold list_at at 1. rewrite dict_get_ensure_same.
  - unfold list_at. now rewrite dict_get_ensure_other by reflexivity.
  - now rewrite dict_get_ensure_other by reflexivity.
Qed.


Lemma updated_niches_of :
  niches_of (VDict (updated ts a d))
  = merged (get_or (lit "topic") (VStr []) a) (niches_of (VDict d)).
Proof. cbn. unfold list_at at 1. now rewrite updated_niches. Qed.

Lemma updated_history_of :
  history_of (VDict (updated ts a d))
  = last3 (history_of (VDict d) ++ [turn ts a]).
Proof. cbn. unfold list_at at 1. now rewrite updated_history. Qed.

Lemma updated_updatable : updatable (VDict (updated ts a d)) = true.
Proof. cbn. now rewrite updated_niches, updated_history. Qed.

End Updated.

(** *** Lists *)

Lemma last3_length (A : Type) (l : list A) :
  List.length (last3 l) = Nat.min (List.length l) 3.
Proof. unfold last3. rewrite length_skipn. lia. Qed.

Lemma last3_app_last3 (A : Type) (l l' : list A) :
  last3 (last3 l ++ l') = last3 (l ++ l').
Proof.
  unfold last3. rewrite !length_app, length_skipn.
  rewrite !skipn_app, length_skipn, skipn_skipn.
  f_equal; [f_equal; lia|f_equal; lia].
Qed.

Lemma last3_snoc (A : Type) (l : list A) (x : A) :
  exists l', last3 (l ++ [x]) = l' ++ [x].
Proof.
  unfold last3. rewrite skipn_app, length_app. cbn [List.length].
  exists (skipn (List.length l + 1 - 3) l).
  replace (List.length l + 1 - 3 - List.length l) with 0 by lia.
  reflexivity.
Qed.

(** At capacity, the oldest entry goes. *)
Lemma last3_full (A : Type) (x1 x2 x3 y : A) :
  last3 ([x1; x2; x3] ++ [y]) = [x2; x3; y].
Proof. reflexivity. Qed.


(** *** The stages one by one *)

(** The first stage never raises: it answers the decoded response, or
    reports the failure on the console and answers the fallback. *)
Lemma input_understanding_spec u m :
  let p := UnderstandingPrompt u in
  let m1 := with_calls (calls m ++ [p]) m in
  input_understanding u m =
    match json_loads (strip (oracle m (List.length (calls m)) p)) with
    | Some v => (Ok v, m1)
    | None =>
        (Ok fallback_analysis,
         with_console (console m ++ [ErrorParsingInput JSONDecodeError]) m1)
    end.
Proof.
  cbv zeta. unfold input_understanding, try_except, bind, generate_content.
  destruct (json_loads _); reflexivity.
Qed.






(** The second stage on a state dict whose niches and history are lists:
    it reads them as they are in the state at that moment. *)
Lemma plan_task_spec a d N H m :
  state m = VDict d ->
  dict_get (lit "niches") d = Some (VList N) ->
  dict_get (lit "history") d = Some (VList H) ->
  plan_task (VDict a) m =
    match comprehension turn_topic H with
    | Raise e => (Raise e, m)
    | Ok topics =>
        match all_str N with
        | Raise e => (Raise e, m)
        | Ok ss =>
            generate_content
              (planning_prompt a (join (lit ", ") ss) topics) m
        end
    end.
Proof.
  intros Hs Gn Gh. unfold plan_task.
  rewrite bind_get_state, Hs. cbv beta.
  rewrite py_get_dict, bind_lift. cbv beta.
  rewrite py_get_dict, bind_lift. cbv beta.
  unfold get_or at 1 2. rewrite Gn, Gh. cbn [py_iter]. rewrite bind_lift.
  destruct (comprehension turn_topic H) as [topics|e]; [|reflexivity].
  rewrite bind_lift. cbv beta.
  do 3 (rewrite py_get_dict, bind_lift; cbv beta).
  unfold join_values. cbn [py_iter].
  destruct (all_str N) as [ss|e]; [|reflexivity].
  rewrite bind_lift. cbv beta. rewrite py_get_dict, bind_lift. reflexivity.
Qed.

Lemma generate_output_spec plan d m :
  state m = VDict d ->
  generate_output plan m =
    match stored_tone d with
    | Raise e => (Raise e, m)
    | Ok tone => generate_content (OutputPrompt plan tone) m
    end.
Proof.
  intros Hs. unfold generate_output, stored_tone.
  rewrite bind_get_state, Hs. cbv beta.
  rewrite py_get_dict, bind_lift. cbv beta. unfold get_or.
  destruct (dict_get (lit "user_preferences") d) as [prefs|].
  - destruct (py_get prefs _ _); reflexivity.
  - reflexivity.
Qed.

(** The three stages after the first, on an analysis dict and a state of
    the expected schema: the state is updated and persisted first; the
    planner and the renderer then read that state. *)
Lemma stages_spec a d m :
  state m = VDict d ->
  updatable (VDict d) = true ->
  let d' := updated (clock m (ticks m)) a d in
  let m2 := Machine (oracle m) (clock m) (Dump (VDict d')) (calls m)
                    (S (ticks m)) (console m) (VDict d') in
  (update_state (VDict a) ;;
   plan <- plan_task (VDict a) ;;
   generate_output plan) m =
  match comprehension turn_topic (history_of (VDict d')) with
  | Raise e => (Raise e, m2)
  | Ok topics =>
      match all_str (niches_of (VDict d')) with
      | Raise e => (Raise e, m2)
      | Ok ss =>
          let P := planning_prompt a (join (lit ", ") ss) topics in
          let m3 := with_calls (calls m ++ [P]) m2 in
          match stored_tone d' with
          | Raise e => (Raise e, m3)
          | Ok tone =>
              generate_content
                (OutputPrompt (oracle m (List.length (calls m)) P) tone) m3
          end
      end
  end.
Proof.
  intros Hs Hu. cbv zeta.
  rewrite (bind_ok _ (update_state_spec a Hs Hu)). cbv zeta beta.
  set (d' := updated (clock m (ticks m)) a d).
  set (m2 := Machine _ _ _ _ _ _ _).
  pose proof (updated_niches (clock m (ticks m)) a Hu) as Gn.
  pose proof (updated_history (clock m (ticks m)) a Hu) as Gh.
  fold d' in Gn, Gh.
  assert (Hs2 : state m2 = VDict d') by reflexivity.
  unfold bind at 1. rewrite (plan_task_spec a Hs2 Gn Gh).
  cbn [history_of niches_of]. unfold list_at. rewrite Gn, Gh.
  destruct (comprehension turn_topic _) as [topics|e]; [|reflexivity].
  destruct (all_str _) as [ss|e]; [|reflexivity].
  unfold generate_content at 1. cbv zeta.
  erewrite generate_output_spec by reflexivity.
  reflexivity.
Qed.

(** [run] as a whole on a state of the expected schema. *)
Lemma run_spec u m d :
  state m = VDict d ->
  updatable (VDict d) = true ->
  let p := UnderstandingPrompt u in
  let m1 := with_calls (calls m ++ [p]) m in
  let m1' := match json_loads (strip (oracle m (List.length (calls m)) p)) with
             | Some _ => m1
             | None => with_console
                         (console m ++ [ErrorParsingInput JSONDecodeError]) m1
             end in
  run u m =
  match understood u m with
  | VDict a0 =>
      (update_state (VDict (dict_set (lit "user_input") (VStr u) a0)) ;;
       plan <- plan_task (VDict (dict_set (lit "user_input") (VStr u) a0)) ;;
       generate_output plan) m1'
  | _ => (Raise TypeError, m1')
  end.
Proof.
  intros Hs Hu. cbv zeta. unfold run, understood.
  unfold bind at 1. rewrite input_understanding_spec. cbv zeta.
  destruct (json_loads _) as [v|].
  - destruct v; reflexivity.
  - reflexivity.
Qed.

(** *** Well-formed states *)


Lemma is_turn_turn ts a : is_turn (turn ts a) = true.
Proof. reflexivity. Qed.




(** *** The error sentinel is not JSON *)





(** *** Blank lines *)

Lemma lstrip_blank u : forallb is_space u = true -> lstrip u = [].
Proof.
  induction u as [|c u IH]; [reflexivity|].
  cbn. intros H. apply andb_true_iff in H as [Hc Hu]. now rewrite Hc, IH.
Qed.

Lemma strip_blank u : forallb is_space u = true -> strip u = [].
Proof. intros H. unfold strip. now rewrite lstrip_blank. Qed.

Lemma space_not_letter c :
  is_space c = true -> lower_cp c <> 101%N /\ lower_cp c <> 113%N.
Proof.
  unfold is_space, lower_cp. intros H.
  destruct ((65 <=? c)%N && (c <=? 90)%N) eqn:U.
  - apply andb_true_iff in U as [U1 U2].
    apply N.leb_le in U1. apply N.leb_le in U2.
    repeat (apply orb_true_iff in H as [H|H]);
      try (apply andb_true_iff in H as [H1 H2];
           apply N.leb_le in H1; apply N.leb_le in H2);
      try apply N.eqb_eq in H; lia.
  - assert (c <> 101%N /\ c <> 113%N); [|assumption].
    repeat (apply orb_true_iff in H as [H|H]);
      try (apply andb_true_iff in H as [H1 H2];
           apply N.leb_le in H1; apply N.leb_le in H2);
      try apply N.eqb_eq in H; lia.
Qed.

Lemma blank_is_not_a_command u :
  forallb is_space u = true ->
  existsb (str_eqb (lower u)) [lit "exit"; lit "quit"] = false.
Proof.
  destruct u as [|c u]; [reflexivity|].
  cbn [forallb]. intros H. apply andb_true_iff in H as [Hc _].
  destruct (space_not_letter Hc) as [He Hq].
  change (lit "exit") with (101%N :: lit "xit").
  change (lit "quit") with (113%N :: lit "uit").
  cbn [existsb lower List.map str_eqb].
  apply N.eqb_neq in He. apply N.eqb_neq in Hq.
  now rewrite He, Hq.
Qed.

(** *** Merging a topic *)

Lemma strings_app l l' : strings (l ++ l') = strings l ++ strings l'.
Proof.
  induction l as [|x l IH]; [reflexivity|].
  destruct x; cbn; rewrite ?IH; reflexivity.
Qed.

Lemma in_strings s l : In s (strings l) <-> In (VStr s) l.
Proof.
  induction l as [|x l IH]; [reflexivity|].
  destruct x; cbn; rewrite IH; split; intros H;
    try (now right); try (destruct H as [H|H]; [discriminate|assumption]).
  - destruct H as [->|H]; [now left|now right].
  - destruct H as [[= ->]|H]; [now left|now right].
Qed.

Lemma strings_map ss : strings (List.map VStr ss) = ss.
Proof. induction ss as [|s ss IH]; cbn; now rewrite ?IH. Qed.

Lemma existsb_py_eq_str s l :
  existsb (py_eq (VStr s)) l = true <-> In (VStr s) l.
Proof.
  rewrite existsb_exists. split.
  - intros (x & Hx & E). apply py_eq_str in E. now subst.
  - intros H. exists (VStr s). split; [assumption|]. now apply py_eq_str.
Qed.

Lemma existsb_py_eq_map s ss :
  existsb (py_eq (VStr s)) (List.map VStr ss) = existsb (str_eqb s) ss.
Proof.
  induction ss as [|t ss IH]; [reflexivity|].
  cbn [List.map existsb]. rewrite IH. reflexivity.
Qed.

Lemma NoDup_snoc (A : Type) (l : list A) (x : A) :
  NoDup l -> ~ In x l -> NoDup (l ++ [x]).
Proof.
  intros Hl Hx. induction Hl as [|y l Hy Hl IH]; cbn.
  - constructor; [easy|constructor].
  - constructor.
    + rewrite in_app_iff. intros [H|[H|[]]]; [easy|].
      subst. apply Hx. now left.
    + apply IH. intros H. apply Hx. now right.
Qed.

Lemma merged_prefix topic l : exists added, merged topic l = l ++ added.
Proof.
  destruct (merged_cases topic l) as [->|(-> & _)].
  - exists []. now rewrite app_nil_r.
  - now exists [topic].
Qed.

Lemma merged_nodup topic l :
  NoDup (strings l) -> NoDup (strings (merged topic l)).
Proof.
  intros H. destruct (merged_cases topic l) as [->|(-> & _ & E)]; trivial.
  rewrite strings_app. destruct topic; cbn; rewrite ?app_nil_r; trivial.
  apply NoDup_snoc; trivial.
  rewrite in_strings, <- existsb_py_eq_str, E. discriminate.
Qed.

Lemma merged_no_empty topic l :
  ~ In (VStr []) l -> ~ In (VStr []) (merged topic l).
Proof.
  intros H. destruct (merged_cases topic l) as [->|(-> & T & _)]; trivial.
  rewrite in_app_iff. intros [H'|[E|[]]]; [easy|].
  rewrite E in T. discriminate.
Qed.

(** A truthy topic is among the niches once merged. *)
Lemma merged_contains topic l :
  truthy topic = true -> existsb (py_eq topic) (merged topic l) = true
                         \/ In topic (merged topic l).
Proof.
  intros T. unfold merged. rewrite T. cbn [andb].
  destruct (existsb (py_eq topic) l) eqn:E; cbn [negb]; [now left|].
  right. rewrite in_app_iff. right. now left.
Qed.

Lemma merged_contains_str s l :
  s <> [] -> In (VStr s) (merged (VStr s) l).
Proof.
  intros Hs. destruct (@merged_contains (VStr s) l) as [H|H]; trivial.
  - now destruct s.
  - now apply existsb_py_eq_str.
Qed.

Lemma merged_strings t ss :
  merged (VStr t) (List.map VStr ss)
  = List.map VStr
      (ss ++ if match t with [] => true | _ => false end
                || existsb (str_eqb t) ss
             then [] else [t]).
Proof.
  unfold merged. rewrite existsb_py_eq_map.
  destruct t as [|c t]; cbn [truthy andb orb].
  - now rewrite app_nil_r.
  - destruct (existsb _ ss); cbn [negb].
    + now rewrite app_nil_r.
    + now rewrite map_app.
Qed.

(** *** A completed request *)

(** What a request that completed did, on a state of the expected
    schema. *)
Lemma run_inv u m d out m' :
  state m = VDict d ->
  updatable (VDict d) = true ->
  run u m = (Ok out, m') ->
  exists a0 topics ss tone,
    understood u m = VDict a0 /\
    let a := dict_set (lit "user_input") (VStr u) a0 in
    let d' := updated (clock m (ticks m)) a d in
    let n := List.length (calls m) in
    let P := planning_prompt a (join (lit ", ") ss) topics in
    let O := OutputPrompt (oracle m (S n) P) tone in
    comprehension turn_topic (history_of (VDict d')) = Ok topics
    /\ all_str (niches_of (VDict d')) = Ok ss
    /\ stored_tone d' = Ok tone
    /\ out = oracle m (S (S n)) O
    /\ state m' = VDict d'
    /\ fs m' = Dump (VDict d')
    /\ calls m' = calls m ++ [UnderstandingPrompt u; P; O]
    /\ ticks m' = S (ticks m)
    /\ oracle m' = oracle m
    /\ clock m' = clock m.
Proof.
  intros Hs Hu. rewrite (run_spec u Hs Hu).
  destruct (understood u m) as [| | | | |?|a0] eqn:Eu;
    try (destruct (json_loads _); discriminate).
  set (m1 := match json_loads _ with Some _ => _ | None => _ end).
  assert (F : state m1 = state m /\ clock m1 = clock m
              /\ ticks m1 = ticks m /\ oracle m1 = oracle m
              /\ calls m1 = calls m ++ [UnderstandingPrompt u]).
  { unfold m1. destruct (json_loads _); now fields. }
  destruct F as (F1 & F2 & F3 & F4 & F5).
  assert (Hs1 : state m1 = VDict d) by now rewrite F1.
  rewrite (stages_spec _ Hs1 Hu). cbv zeta. rewrite F2, F3, F4, F5.
  set (a := dict_set (lit "user_input") (VStr u) a0).
  set (d' := updated (clock m (ticks m)) a d).
  destruct (comprehension turn_topic _) as [topics|] eqn:Et; [|discriminate].
  destruct (all_str _) as [ss|] eqn:En; [|discriminate].
  destruct (stored_tone d') as [tone|] eqn:Ep; [|discriminate].
  unfold generate_content. fields. intros [= <- <-].
  exists a0, topics, ss, tone. split; [reflexivity|]. cbv zeta. fold a d'.
  rewrite !length_app. cbn [List.length]. rewrite !Nat.add_1_r.
  rewrite <- !app_assoc. fields. repeat split; trivial.
Qed.

Lemma understood_user_input u a0 :
  dict_get (lit "user_input") (dict_set (lit "user_input") (VStr u) a0)
  = Some (VStr u).
Proof. apply dict_get_set_same. Qed.

(** One request, as far as the history goes. *)
Lemma run_history u m out m' :
  updatable (state m) = true ->
  run u m = (Ok out, m') ->
  exists a,
    dict_get (lit "user_input") a = Some (VStr u)
    /\ history_of (state m')
       = last3 (history_of (state m) ++ [turn (clock m (ticks m)) a])
    /\ updatable (state m') = true
    /\ ticks m' = S (ticks m)
    /\ clock m' = clock m.
Proof.
  intros Hu Hr. destruct (state m) as [| | | | | |d] eqn:Hs; try discriminate.
  destruct (run_inv Hs Hu Hr)
    as (a0 & topics & ss & tone & _ & H). cbv zeta in H.
  destruct H as (_ & _ & _ & _ & Hs' & _ & _ & Ht & _ & Hc).
  exists (dict_set (lit "user_input") (VStr u) a0).
  rewrite Hs'. split; [apply understood_user_input|].
  split; [now apply updated_history_of|].
  split; [now apply updated_updatable|]. now split.
Qed.

Lemma turns_from_firstn c t inputs turns k :
  turns_from c t inputs turns ->
  turns_from c t (firstn k inputs) (firstn k turns).
Proof.
  intros H. revert k. induction H as [t|t u us a ts Ha H IH]; intros [|k];
    cbn; try constructor; auto.
Qed.

Lemma turns_from_length c t inputs turns :
  turns_from c t inputs turns -> List.length turns = List.length inputs.
Proof. induction 1; cbn; congruence. Qed.

(** Requests in a row: after any number of them the history holds the
    last three turns so far. *)
Lemma requests_history inputs :
  forall m outs m',
    updatable (state m) = true ->
    List.length (history_of (state m)) <= 3 ->
    requests inputs m = (Ok outs, m') ->
    exists turns,
      turns_from (clock m) (ticks m) inputs turns /\
      forall k, k <= List.length inputs ->
        exists outs_k m_k,
          requests (firstn k inputs) m = (Ok outs_k, m_k) /\
          history_of (state m_k)
          = last3 (history_of (state m) ++ firstn k turns).
Proof.
  induction inputs as [|u rest IH]; intros m outs m' Hu Hl Hr.
  - exists []. split; [constructor|]. intros k Hk.
    exists [], m. destruct k; cbn; rewrite app_nil_r;
      (split; [reflexivity|]); unfold last3;
      now replace (List.length (history_of (state m)) - 3) with 0 by lia.
  - cbn [requests] in Hr. apply bind_inv in Hr as (r & m1 & Hrun & Hr).
    apply bind_inv in Hr as (rs & m2 & Hrest & _).
    destruct (run_history Hu Hrun) as (a & Ha & Hh & Hu1 & Ht & Hc).
    assert (Hl1 : List.length (history_of (state m1)) <= 3).
    { rewrite Hh, last3_length. lia. }
    destruct (IH _ _ _ Hu1 Hl1 Hrest) as (turns & Hturns & Hk).
    rewrite Hc, Ht in Hturns.
    exists (turn (clock m (ticks m)) a :: turns).
    split; [now constructor|]. intros [|k] Hle.
    + exists [], m. cbn. rewrite app_nil_r. split; [reflexivity|].
      unfold last3.
      now replace (List.length (history_of (state m)) - 3) with 0 by lia.
    + cbn [List.length] in Hle.
      destruct (Hk k ltac:(lia)) as (outs_k & m_k & Hreq & Hhk).
      exists (r :: outs_k), m_k. cbn [firstn requests].
      rewrite (bind_ok _ Hrun), (bind_ok _ Hreq). split; [reflexivity|].
      rewrite Hhk, Hh, last3_app_last3, <- app_assoc. reflexivity.
Qed.

(** *** The loop and the requests it makes

    Nothing in the agent reads the console, so the lines the loop prints
    between two requests do not change what the requests do: on accepted
    lines whose requests complete, the loop is [requests] up to the
    console. *)

Lemma same_but_console_refl m : same_but_console m m.
Proof. now repeat split. Qed.

Lemma blind_ret (A : Type) (a : A) : console_blind (ret a).
Proof. intros m1 m2 H. now split. Qed.

Lemma blind_lift (A : Type) (r : result A) : console_blind (lift r).
Proof. intros m1 m2 H. now split. Qed.

Lemma blind_raise (A : Type) e : console_blind (@raise A e).
Proof. intros m1 m2 H. now split. Qed.

Lemma blind_bind (A B : Type) (c : M A) (k : A -> M B) :
  console_blind c -> (forall a, console_blind (k a)) ->
  console_blind (bind c k).
Proof.
  intros Hc Hk m1 m2 H. unfold bind.
  destruct (Hc m1 m2 H) as [Hr Hm].
  destruct (c m1) as [[a|e] m1'], (c m2) as [[a'|e'] m2'];
    cbn [fst snd] in *; try discriminate.
  - injection Hr as <-. now apply Hk.
  - injection Hr as <-. now split.
Qed.

Lemma blind_try_except (A : Type) (c : M A) caught (h : exn -> M A) :
  console_blind c -> (forall e, console_blind (h e)) ->
  console_blind (try_except c caught h).
Proof.
  intros Hc Hh m1 m2 H. unfold try_except.
  destruct (Hc m1 m2 H) as [Hr Hm].
  destruct (c m1) as [[a|e] m1'], (c m2) as [[a'|e'] m2'];
    cbn [fst snd] in *; try discriminate.
  - now split.
  - injection Hr as <-. destruct (caught e); [now apply Hh|now split].
Qed.

Lemma blind_get_state : console_blind get_state.
Proof.
  intros m1 m2 H. split; [|exact H]. cbn.
  destruct H as (_ & _ & _ & _ & _ & ->). reflexivity.
Qed.

Lemma blind_set_state s : console_blind (set_state s).
Proof.
  intros m1 m2 (H1 & H2 & H3 & H4 & H5 & H6). now repeat split.
Qed.

Lemma blind_print l : console_blind (print l).
Proof.
  intros m1 m2 (H1 & H2 & H3 & H4 & H5 & H6). now repeat split.
Qed.

Lemma blind_now : console_blind now.
Proof.
  intros m1 m2 (H1 & H2 & H3 & H4 & H5 & H6). unfold now. cbn.
  rewrite H2, H5. now repeat split.
Qed.

Lemma blind_save_state : console_blind save_state.
Proof.
  intros m1 m2 (H1 & H2 & H3 & H4 & H5 & H6). unfold save_state. cbn.
  rewrite H6. now repeat split.
Qed.

Lemma blind_generate_content p : console_blind (generate_content p).
Proof.
  intros m1 m2 (H1 & H2 & H3 & H4 & H5 & H6). unfold generate_content. cbn.
  rewrite H1, H4. now repeat split.
Qed.

Ltac blind :=
  repeat first
    [ apply blind_ret | apply blind_lift | apply blind_raise
    | apply blind_get_state | apply blind_set_state | apply blind_print
    | apply blind_now | apply blind_save_state
    | apply blind_generate_content
    | apply blind_bind; [|intros ?]
    | apply blind_try_except; [|intros ?]
    | match goal with
      | |- console_blind (if ?b then _ else _) => destruct b
      | |- console_blind (match ?x with _ => _ end) => destruct x
      end ].

Lemma blind_ensure_key k : console_blind (ensure_key k).
Proof. unfold ensure_key. blind. Qed.

Lemma blind_append_at k x : console_blind (append_at k x).
Proof. unfold append_at. blind. Qed.

Lemma blind_update_state a : console_blind (update_state a).
Proof.
  unfold update_state.
  repeat first [ apply blind_ensure_key | apply blind_append_at
               | progress blind ].
Qed.

Lemma blind_plan_task a : console_blind (plan_task a).
Proof. unfold plan_task. blind. Qed.

Lemma blind_generate_output plan : console_blind (generate_output plan).
Proof. unfold generate_output. blind. Qed.

Lemma blind_input_understanding u : console_blind (input_understanding u).
Proof. unfold input_understanding. blind. Qed.

Lemma blind_run u : console_blind (run u).
Proof.
  unfold run.
  repeat first [ apply blind_input_understanding | apply blind_update_state
               | apply blind_plan_task | apply blind_generate_output
               | progress blind ].
Qed.

Lemma loop_makes_requests lines :
  forall m0 m outs m',
    Forall accepted lines ->
    same_but_console m0 m ->
    requests lines m = (Ok outs, m') ->
    exists m'', loop lines m0 = (Ok Continue, m'')
                /\ same_but_console m'' m'.
Proof.
  induction lines as [|l rest IH]; intros m0 m outs m' Ha Hsim Hr.
  - injection Hr as _ <-. now exists m0.
  - inversion Ha as [|? ? [Hcmd Hstrip] Ha']; subst.
    cbn [requests] in Hr. apply bind_inv in Hr as (r & m1 & Hrun & Hr).
    apply bind_inv in Hr as (rs & m2 & Hrest & Hret).
    injection Hret as _ <-.
    destruct (blind_run l Hsim) as [Hfst Hsnd].
    rewrite Hrun in Hfst, Hsnd. cbn [fst snd] in Hfst, Hsnd.
    destruct (run l m0) as [r0 m0'] eqn:E0. cbn [fst snd] in Hfst, Hsnd.
    subst r0.
    assert (Hbody : loop_body l m0
                    = (Ok Continue,
                       with_console (console m0' ++ [Reply r]) m0')).
    { unfold loop_body, try_except. rewrite Hcmd.
      destruct (strip l); [easy|]. rewrite (bind_ok _ E0). reflexivity. }
    destruct (IH (with_console (console m0' ++ [Reply r]) m0') m1 rs m2 Ha')
      as (m'' & Hloop & Hsim'').
    + destruct Hsnd as (H1 & H2 & H3 & H4 & H5 & H6). now repeat split.
    + exact Hrest.
    + exists m''. cbn [loop]. rewrite (bind_ok _ Hbody). now split.
Qed.

(* ===================================================================== *)
(** ** The model at work *)
(* ===================================================================== *)

Example decode_number : json_loads (lit " 123 ") = Some (VInt 123).
Proof. vm_compute. reflexivity. Qed.

(** The double nearest to one tenth is [0x1.999999999999ap-4]. *)
Example decode_tenth :
  json_loads (lit "0.1") = Some (VFloat (FFin false 7205759403792794 (-56))).
Proof. vm_compute. reflexivity. Qed.

Example decode_object :
  json_loads (lit "{" ++ quoted "topic" ++ lit ": " ++ quoted "remote work"
              ++ lit ", " ++ quoted "n" ++ lit ": [1, true, null]}")
  = Some (VDict [ (lit "topic", VStr (lit "remote work"));
                  (lit "n", VList [VInt 1; VBool true; VNone]) ]).
Proof. vm_compute. reflexivity. Qed.

Example decode_sentinel : json_loads (lit "API Error: 404") = None.
Proof. vm_compute. reflexivity. Qed.

Example decode_trailing_comma : json_loads (lit "[1, 2,]") = None.
Proof. vm_compute. reflexivity. Qed.

(** Creating the agent without a state file gives the fresh machine. *)
Lemma init_without_file o c : __init__ (boot o c Missing) = (Ok tt, fresh o c).
Proof. reflexivity. Qed.

(** Four requests on a fresh agent: the first one is gone from the
    history, the niches keep all four topics. *)
Example four_requests :
  let m' := snd (requests [lit "cats"; lit "dogs"; lit "owls"; lit "bees"]
                          (fresh helpful seconds)) in
  List.map (fun h => match h with
                     | VDict t => get_or (lit "user_input") VNone t
                     | _ => VNone
                     end) (history_of (state m'))
  = [VStr (lit "dogs"); VStr (lit "owls"); VStr (lit "bees")]
  /\ niches_of (state m')
     = [VStr (lit "cats"); VStr (lit "dogs"); VStr (lit "owls");
        VStr (lit "bees")]
  /\ ticks m' = 4 /\ List.length (calls m') = 12.
Proof. vm_compute. repeat split. Qed.

(** A topic that is a number is merged and persisted before the planner
    fails to join the niches; the next request fails the same way even
    though its own topic is a string. *)
Example number_topic_stays :
  let '(r1, m1) := run (lit "first") (fresh numbering seconds) in
  let '(r2, m2) := run (lit "second")
                       (Machine helpful seconds (fs m1) (calls m1)
                                (ticks m1) (console m1) (state m1)) in
  r1 = Raise TypeError
  /\ niches_of (state m1) = [VInt 5]
  /\ fs m1 = Dump (state m1)
  /\ r2 = Raise TypeError
  /\ niches_of (state m2) = [VInt 5; VStr (lit "second")].
Proof. vm_compute. repeat split. Qed.

(** A session at the command line: a request, a blank line, [EXIT]. *)
Example a_session :
  let '(r, m') := main [lit "cats"; lit "   "; lit "EXIT"; lit "late"]
                       (boot helpful seconds Missing) in
  r = Ok Break
  /\ console m' = [Banner; Reply (lit "Prompt Idea: ..."); PleaseEnter;
                   SessionEnded]
  /\ List.length (calls m') = 3
  /\ fs m' = Dump (state m').
Proof. vm_compute. repeat split. Qed.

(* ===================================================================== *)
(** ** The claims *)
(* ===================================================================== *)

(** C1: starting from the freshly initialised state, after every number
    [k] of the [N] completed requests the history is the last
    [min k 3] of the turns of the first [k] requests, in the order of
    the requests (the turn of request [i] carries the clock text of
    reading [i] and input [i]): its length is [min k 3], it is ordered
    oldest to newest, and what an append beyond three drops is the
    oldest entry. *)
Theorem history_keeps_last_three inputs m outs m' :
  state m = default_state ->
  requests inputs m = (Ok outs, m') ->
  exists turns,
    turns_from (clock m) (ticks m) inputs turns /\
    forall k, k <= List.length inputs ->
      exists outs_k m_k,
        requests (firstn k inputs) m = (Ok outs_k, m_k)
        /\ history_of (state m_k) = skipn (k - 3) (firstn k turns)
        /\ List.length (history_of (state m_k)) = Nat.min k 3.
Proof.
  intros Hs Hr.
  assert (Hu : updatable (state m) = true) by now rewrite Hs.
  assert (Hh : history_of (state m) = []) by now rewrite Hs.
  destruct (requests_history Hu ltac:(rewrite Hh; cbn; lia) Hr)
    as (turns & Hturns & Hk).
  exists turns. split; [exact Hturns|]. intros k Hle.
  destruct (Hk k Hle) as (outs_k & m_k & Hreq & Hhist).
  exists outs_k, m_k. split; [exact Hreq|].
  rewrite Hhist, Hh. cbn [app].
  assert (Hlen : List.length (firstn k turns) = k).
  { rewrite length_firstn, (turns_from_length Hturns). lia. }
  split.
  - unfold last3. now rewrite Hlen.
  - now rewrite last3_length, Hlen.
Qed.

Lemma history_keeps_last_three_witness :
  let inputs := [lit "cats"; lit "dogs"; lit "owls"; lit "bees"] in
  let m := fresh helpful seconds in
  state m = default_state /\
  exists outs m',
    requests inputs m = (Ok outs, m') /\
    List.length (history_of (state m')) = 3.
Proof.
  cbv zeta. split; [reflexivity|].
  destruct (requests [lit "cats"; lit "dogs"; lit "owls"; lit "bees"]
              (fresh helpful seconds)) as [[outs|e] m'] eqn:E.
  - exists outs, m'. split; [reflexivity|].
    destruct (history_keeps_last_three (m := fresh helpful seconds)
                eq_refl E) as (turns & _ & Hk).
    destruct (Hk 4 (le_n 4)) as (outs_k & m_k & Hreq & _ & Hlen).
    cbn [firstn] in Hreq. rewrite E in Hreq.
    injection Hreq as _ <-. exact Hlen.
  - vm_compute in E. discriminate.
Defined.

(** The niches while analyses are folded in one after the other. *)
Lemma update_all_niches intents :
  forall m,
    updatable (state m) = true ->
    NoDup (strings (niches_of (state m))) ->
    ~ In (VStr []) (niches_of (state m)) ->
    exists m' added,
      update_all (List.map VDict intents) m = (Ok tt, m')
      /\ updatable (state m') = true
      /\ niches_of (state m') = niches_of (state m) ++ added
      /\ NoDup (strings (niches_of (state m')))
      /\ ~ In (VStr []) (niches_of (state m'))
      /\ forall topics ss,
           Forall2 (fun a t => get_or (lit "topic") (VStr []) a = VStr t)
                   intents topics ->
           niches_of (state m) = List.map VStr ss ->
           niches_of (state m')
           = List.map VStr (ss ++ distinct ss topics).
Proof.
  induction intents as [|a intents IH]; intros m Hu Hn He.
  - exists m, []. cbn. rewrite app_nil_r. repeat split; trivial.
    intros topics ss F. inversion F. cbn. now rewrite app_nil_r.
  - destruct (state m) as [| | | | | |d] eqn:Hs; try discriminate.
    pose proof (update_state_spec a Hs Hu) as Hstep. cbv zeta in Hstep.
    set (d' := updated (clock m (ticks m)) a d) in *.
    set (m1 := Machine _ _ _ _ _ _ _) in Hstep.
    pose proof (updated_niches_of (clock m (ticks m)) a Hu) as En.
    fold d' in En.
    destruct (IH m1) as (m' & added & Hrun & Hu' & Hpre & Hn' & He' & Hs').
    + apply updated_updatable. exact Hu.
    + cbn [state m1]. rewrite En. now apply merged_nodup.
    + cbn [state m1]. rewrite En. now apply merged_no_empty.
    + cbn [state m1] in Hpre, Hs'. rewrite En in Hpre.
      destruct (merged_prefix (get_or (lit "topic") (VStr []) a)
                  (niches_of (VDict d))) as [added0 Hadd].
      exists m', (added0 ++ added). cbn [List.map update_all].
      rewrite (bind_ok _ Hstep). repeat split; trivial.
      * now rewrite Hpre, Hadd, app_assoc.
      * intros topics ss F Hss. inversion F as [|a' t is' ts' Ht F']; subst.
        rewrite (Hs' ts' (ss ++ if match t with [] => true | _ => false end
                                  || existsb (str_eqb t) ss
                               then [] else [t]) F').
        -- cbn [distinct]. destruct (_ || _).
           ++ now rewrite app_nil_r.
           ++ now rewrite <- app_assoc.
        -- rewrite En, Ht, Hss. apply merged_strings.
Qed.

(** C2: whatever dict analyses are folded into a state whose niches hold
    no string twice and no empty string (the fresh state among them),
    every update completes and the niches still hold no string twice and
    no empty string; they only grow at the end, so the order of insertion
    stays; and when the topics are strings, the niches are the old ones
    followed by the new non-empty topics in the order of their first
    appearance. *)
Theorem niches_distinct_nonempty_ordered intents m :
  updatable (state m) = true ->
  NoDup (strings (niches_of (state m))) ->
  ~ In (VStr []) (niches_of (state m)) ->
  exists m' added,
    update_all (List.map VDict intents) m = (Ok tt, m')
    /\ niches_of (state m') = niches_of (state m) ++ added
    /\ NoDup (strings (niches_of (state m')))
    /\ ~ In (VStr []) (niches_of (state m'))
    /\ forall topics ss,
         Forall2 (fun a t => get_or (lit "topic") (VStr []) a = VStr t)
                 intents topics ->
         niches_of (state m) = List.map VStr ss ->
         niches_of (state m') = List.map VStr (ss ++ distinct ss topics).
Proof.
  intros Hu Hn He.
  destruct (update_all_niches intents Hu Hn He)
    as (m' & added & H1 & _ & H2 & H3 & H4 & H5).
  now exists m', added.
Qed.

Lemma niches_distinct_nonempty_ordered_witness :
  let intents := [ [(lit "topic", VStr (lit "cats"))];
                   [(lit "topic", VStr [])];
                   [(lit "topic", VStr (lit "dogs"))];
                   [(lit "topic", VStr (lit "cats"))];
                   [(lit "tone", VStr (lit "dry"))] ] in
  exists m',
    update_all (List.map VDict intents) (fresh offline seconds) = (Ok tt, m')
    /\ niches_of (state m') = [VStr (lit "cats"); VStr (lit "dogs")].
Proof.
  cbv zeta.
  destruct (@niches_distinct_nonempty_ordered
              [ [(lit "topic", VStr (lit "cats"))];
                [(lit "topic", VStr [])];
                [(lit "topic", VStr (lit "dogs"))];
                [(lit "topic", VStr (lit "cats"))];
                [(lit "tone", VStr (lit "dry"))] ]
              (fresh offline seconds))
    as (m' & added & Hrun & _ & _ & _ & Htopics).
  - reflexivity.
  - vm_compute. constructor.
  - vm_compute. intros [].
  - exists m'. split; [exact Hrun|].
    apply (Htopics [lit "cats"; []; lit "dogs"; lit "cats"; []] []).
    + repeat constructor.
    + reflexivity.
Defined.







(** C10: when the response to the intent-extraction call does not
    decode, on a state of the expected schema, the fallback is folded
    into the state like any extracted intent, whatever happens in the
    later stages: after the run [general] is among the niches, the newest
    turn of the history is the one made of the fallback (its analysis
    topic is [general]), and the state file holds that very state. *)
Theorem fallback_is_recorded u m r m' :
  updatable (state m) = true ->
  json_loads (strip (oracle m (List.length (calls m))
                       (UnderstandingPrompt u))) = None ->
  run u m = (r, m') ->
  In (VStr (lit "general")) (niches_of (state m'))
  /\ (exists older,
        history_of (state m')
        = older ++ [turn (clock m (ticks m)) (fallback_with u)])
  /\ topic_in (turn (clock m (ticks m)) (fallback_with u))
     = VStr (lit "general")
  /\ fs m' = Dump (state m').
Proof.
  intros Hu Hj Hrun.
  destruct (state m) as [| | | | | |d] eqn:Hs; try discriminate.
  rewrite (run_spec u Hs Hu) in Hrun. unfold understood in Hrun.
  rewrite Hj in Hrun. unfold fallback_analysis in Hrun.
  cbn [dict_set] in Hrun. revert Hrun. keys. fold (fallback_with u).
  erewrite stages_spec; [|fields; exact Hs|exact Hu].
  cbv zeta. fields.
  set (d' := updated (clock m (ticks m)) (fallback_with u) d).
  assert (St : forall m2, state m2 = VDict d' -> fs m2 = Dump (VDict d') ->
    In (VStr (lit "general")) (niches_of (state m2))
    /\ (exists older,
          history_of (state m2)
          = older ++ [turn (clock m (ticks m)) (fallback_with u)])
    /\ topic_in (turn (clock m (ticks m)) (fallback_with u))
       = VStr (lit "general")
    /\ fs m2 = Dump (state m2)).
  { intros m2 E1 E2. rewrite E1, E2. unfold d'.
    rewrite (updated_niches_of _ _ Hu), (updated_history_of _ _ Hu).
    split; [now apply merged_contains_str|].
    split; [apply last3_snoc|]. now split. }
  destruct (comprehension turn_topic _);
    [|intros [= <- <-]; now apply St].
  destruct (all_str _); [|intros [= <- <-]; now apply St].
  destruct (stored_tone d'); intros [= <- <-]; now apply St.
Qed.

Lemma fallback_is_recorded_witness :
  let m := fresh offline seconds in
  let u := lit "something for beginners" in
  updatable (state m) = true
  /\ json_loads (strip (oracle m 0 (UnderstandingPrompt u))) = None
  /\ In (VStr (lit "general")) (niches_of (state (snd (run u m))))
  /\ fs (snd (run u m)) = Dump (state (snd (run u m))).
Proof.
  cbv zeta. split; [reflexivity|]. split; [vm_compute; reflexivity|].
  destruct (run (lit "something for beginners") (fresh offline seconds))
    as [r m'] eqn:E.
  destruct (@fallback_is_recorded (lit "something for beginners")
              (fresh offline seconds) r m') as (H1 & _ & _ & H2).
  - reflexivity.
  - vm_compute. reflexivity.
  - exact E.
  - now split.
Defined.



(** C7, as the code has it: the turn a completed request appends has the
    three entries [timestamp] (the clock text read during the update),
    [analysis] and [user_input] (the raw input); the analysis embedded
    is the record the extractor answered with the raw input attached
    under [user_input], so it carries that entry besides the ones the
    extractor produced. *)
Theorem appended_turn_shape u m out m' :
  updatable (state m) = true ->
  run u m = (Ok out, m') ->
  exists intent older,
    fst (input_understanding u m) = Ok (VDict intent)
    /\ history_of (state m')
       = older ++
         [VDict [ (lit "timestamp", VStr (clock m (ticks m)));
                  (lit "analysis",
                     VDict (dict_set (lit "user_input") (VStr u) intent));
                  (lit "user_input", VStr u) ]].
Proof.
  intros Hu Hrun.
  destruct (state m) as [| | | | | |d] eqn:Hs; try discriminate.
  destruct (run_inv Hs Hu Hrun) as (a0 & topics & ss & tone & Ha & H).
  cbv zeta in H. destruct H as (_ & _ & _ & _ & Hs' & _).
  destruct (last3_snoc (history_of (VDict d))
              (turn (clock m (ticks m))
                 (dict_set (lit "user_input") (VStr u) a0))) as [older Ho].
  exists a0, older. split.
  - rewrite input_understanding_spec. cbv zeta.
    unfold understood in Ha. destruct (json_loads _); cbn [fst]; congruence.
  - rewrite Hs', (updated_history_of _ _ Hu), Ho.
    unfold turn, get_or. now rewrite dict_get_set_same.
Qed.

Lemma appended_turn_shape_witness :
  exists out m',
    updatable (state (fresh helpful seconds)) = true
    /\ run (lit "bees") (fresh helpful seconds) = (Ok out, m')
    /\ List.length (history_of (state m')) = 1.
Proof.
  destruct (run (lit "bees") (fresh helpful seconds)) as [[out|e] m'] eqn:E.
  - exists out, m'. split; [reflexivity|]. split; [reflexivity|].
    destruct (@appended_turn_shape (lit "bees") (fresh helpful seconds)
                out m' eq_refl E) as (intent & older & _ & _).
    assert (E' : m' = snd (run (lit "bees") (fresh helpful seconds)))
      by now rewrite E.
    rewrite E'. vm_compute. reflexivity.
  - vm_compute in E. discriminate.
Defined.

(** C7 as stated fails: after a completed request whose extractor
    answered the three-field fallback record, the analysis embedded in
    the appended turn is not that record; it has a fourth entry. *)
Lemma embedded_analysis_has_fourth_entry :
  let m := fresh offline seconds in
  let u := lit "hello" in
  fst (input_understanding u m) = Ok fallback_analysis
  /\ exists out m' t,
       run u m = (Ok out, m')
       /\ history_of (state m') = [VDict t]
       /\ dict_get (lit "analysis") t
          = Some (VDict [ (lit "topic", VStr (lit "general"));
                          (lit "tone", VStr (lit "neutral"));
                          (lit "constraints", VStr []);
                          (lit "user_input", VStr (lit "hello")) ])
       /\ dict_get (lit "analysis") t <> Some fallback_analysis.
Proof.
  cbv zeta. split; [vm_compute; reflexivity|].
  do 3 eexists. split; [vm_compute; reflexivity|].
  split; [reflexivity|]. split; [reflexivity|].
  vm_compute. discriminate.
Qed.

(** C8: a line that is empty or consists of whitespace only is turned
    away by the loop before anything else happens: the loop prints its
    request to enter something and goes on; [run] is not called, so no
    prompt is sent and the clock is not read, and the state, in memory
    and in the state file, is what it was. *)
Theorem blank_line_is_rejected u m :
  forallb is_space u = true ->
  loop_body u m
  = (Ok Continue, with_console (console m ++ [PleaseEnter]) m).
Proof.
  intros Hb. unfold loop_body, try_except.
  rewrite (blank_is_not_a_command Hb), (strip_blank Hb).
  reflexivity.
Qed.

Lemma blank_line_is_rejected_witness :
  let m := fresh helpful seconds in
  let u := [32; 9; 160; 32]%N in
  forallb is_space u = true
  /\ state (snd (loop_body u m)) = state m
  /\ fs (snd (loop_body u m)) = fs m
  /\ calls (snd (loop_body u m)) = calls m.
Proof.
  cbv zeta. split; [reflexivity|].
  rewrite (@blank_line_is_rejected [32; 9; 160; 32]%N
             (fresh helpful seconds) eq_refl).
  now repeat split.
Defined.




(** C4, evaluated where the code fails it: the response [[]] to the
    intent-extraction call is valid JSON, so no fallback is taken, and
    attaching the raw input to it raises [TypeError]: [run] does not
    return. The loop catches the exception and reports it. *)
Theorem run_raises_on_non_object_json :
  let m := fresh listing seconds in
  let u := lit "fun prompt about sustainable fashion for beginners" in
  run u m = (Raise TypeError, with_calls [UnderstandingPrompt u] m)
  /\ loop_body u m
     = (Ok Continue,
        with_console [ErrorLine TypeError]
          (with_calls [UnderstandingPrompt u] m)).
Proof. cbv zeta. split; vm_compute; reflexivity. Qed.

(* ===================================================================== *)
(** ** Further properties of the agent *)
(* ===================================================================== *)

(** *** Starting up *)



(** X2: a state file that holds valid JSON which is not truthy (an empty
    object or list, [null], [false], zero, an empty string) is treated
    like a missing one: the state becomes the defaults and the file is
    overwritten with them. *)
Theorem empty_document_is_reset m v :
  stored m = Some v ->
  truthy v = false ->
  __init__ m
  = (Ok tt, with_fs (Dump default_state) (with_state default_state m)).
Proof.
  intros Hv Ht. unfold __init__, load_state, try_except, json_load, stored in *.
  unfold bind. destruct (fs m) eqn:F; try discriminate.
  - rewrite Hv. cbn. rewrite Ht. now destruct m.
  - injection Hv as ->. cbn. rewrite Ht. now destruct m.
Qed.

Lemma empty_document_is_reset_witness :
  let m := boot helpful seconds (Text (lit " { } ")) in
  stored m = Some (VDict [])
  /\ state (snd (__init__ m)) = default_state
  /\ fs (snd (__init__ m)) = Dump default_state.
Proof.
  cbv zeta. split; [vm_compute; reflexivity|].
  rewrite (@empty_document_is_reset
             (boot helpful seconds (Text (lit " { } "))) (VDict [])).
  - now split.
  - vm_compute. reflexivity.
  - reflexivity.
Defined.

(** X3: an error of opening or reading the state file other than the two
    [load_state] catches leaves [__init__] as that exception, before
    anything is set or written; the program ends there, without its
    banner. *)
Theorem other_read_errors_propagate m e lines :
  fs m = Unreadable e ->
  caught_by_load_state e = false ->
  __init__ m = (Raise e, m) /\ main lines m = (Raise e, m).
Proof.
  intros F He.
  assert (H : __init__ m = (Raise e, m)).
  { unfold __init__, load_state, try_except, json_load, bind. rewrite F.
    fold (caught_by_load_state e). now rewrite He. }
  split; [exact H|]. unfold main. now rewrite (bind_raise _ H).
Qed.

Lemma other_read_errors_propagate_witness :
  let m := boot helpful seconds (Unreadable UnicodeDecodeError) in
  main [lit "cats"; lit "exit"] m = (Raise UnicodeDecodeError, m).
Proof.
  cbv zeta.
  apply (@other_read_errors_propagate
           (boot helpful seconds (Unreadable UnicodeDecodeError))
           UnicodeDecodeError [lit "cats"; lit "exit"]); reflexivity.
Defined.

(** *** A state that is not an object *)

Lemma ensure_key_non_dict k m :
  (forall d, state m <> VDict d) ->
  ensure_key k m = (Ok tt, m) \/ ensure_key k m = (Raise TypeError, m).
Proof.
  intros Hs. unfold ensure_key. rewrite bind_get_state.
  destruct (state m) as [| | | |s|l|d]; try (now right).
  - cbn [py_contains]. rewrite bind_lift.
    destruct (is_infix k s); [now left|now right].
  - cbn [py_contains]. rewrite bind_lift.
    destruct (existsb _ l); [now left|now right].
  - now destruct (Hs d).
Qed.

Lemma update_state_non_dict a m :
  (forall d, state m <> VDict d) ->
  update_state (VDict a) m = (Raise TypeError, m).
Proof.
  intros Hs. unfold update_state.
  destruct (ensure_key_non_dict (lit "niches") Hs) as [E|E];
    [rewrite (bind_ok _ E)|now rewrite (bind_raise _ E)].
  destruct (ensure_key_non_dict (lit "history") Hs) as [E'|E'];
    [rewrite (bind_ok _ E')|now rewrite (bind_raise _ E')].
  rewrite py_get_dict, bind_lift.
  assert (G : forall k, py_getitem (state m) k = Raise TypeError).
  { intros k. destruct (state m) as [| | | | | |d]; try reflexivity.
    now destruct (Hs d). }
  destruct (truthy _).
  - unfold bind at 1. rewrite bind_get_state, G. reflexivity.
  - rewrite bind_ret, bind_get_state, G. reflexivity.
Qed.

(** X4: when the state is not an object (the state file held a list, a
    string, a number or [true]), every request raises [TypeError], after
    its first call to the service at most; the state and the state file
    stay as they are, and the loop reports the error and goes on. *)
Theorem non_object_state_fails_every_request u m :
  (forall d, state m <> VDict d) ->
  accepted u ->
  exists printed,
    let m' := with_console (console m ++ printed)
                (with_calls (calls m ++ [UnderstandingPrompt u]) m) in
    run u m = (Raise TypeError, m')
    /\ loop_body u m
       = (Ok Continue, with_console (console m' ++ [ErrorLine TypeError]) m').
Proof.
  intros Hs [Hcmd Hstrip].
  assert (Hrun : exists printed,
    run u m = (Raise TypeError,
               with_console (console m ++ printed)
                 (with_calls (calls m ++ [UnderstandingPrompt u]) m))).
  { unfold run. unfold bind at 1. rewrite input_understanding_spec. cbv zeta.
    destruct (json_loads _) as [v|].
    - exists []. rewrite app_nil_r.
      replace (with_console (console m) _)
        with (with_calls (calls m ++ [UnderstandingPrompt u]) m)
        by now destruct m.
      destruct v; try reflexivity.
      cbn [py_setitem]. rewrite bind_lift.
      rewrite (bind_raise _ (update_state_non_dict _ (m := with_calls _ m) Hs)).
      reflexivity.
    - exists [ErrorParsingInput JSONDecodeError].
      unfold fallback_analysis. cbn [py_setitem]. rewrite bind_lift.
      rewrite (bind_raise _
                 (update_state_non_dict _
                    (m := with_console _ (with_calls _ m)) Hs)).
      reflexivity. }
  destruct Hrun as [printed Hrun]. exists printed. cbv zeta.
  split; [exact Hrun|].
  unfold loop_body, try_except. rewrite Hcmd.
  destruct (strip u); [easy|]. now rewrite (bind_raise _ Hrun).
Qed.

Lemma non_object_state_fails_every_request_witness :
  let m0 := boot helpful seconds (Text (lit "[1, 2]")) in
  let m := snd (__init__ m0) in
  state m = VList [VInt 1; VInt 2]
  /\ fst (run (lit "cats") m) = Raise TypeError
  /\ state (snd (run (lit "cats") m)) = state m
  /\ fs (snd (run (lit "cats") m)) = fs m.
Proof.
  cbv zeta. split; [vm_compute; reflexivity|].
  destruct (@non_object_state_fails_every_request (lit "cats")
              (snd (__init__ (boot helpful seconds (Text (lit "[1, 2]"))))))
    as (printed & Hrun & _).
  - intros d. vm_compute. discriminate.
  - split; [reflexivity|vm_compute; discriminate].
  - cbv zeta in Hrun. rewrite Hrun. now repeat split.
Defined.

(** *** [update_state] one call at a time *)

(** X5: on a state object whose [niches] and [history] are lists or are
    missing, [update_state] with an analysis dict completes; afterwards
    both entries exist, the history is the last three of the old history
    followed by the new turn (so a longer history found in the state
    file is cut down to three at once), the topic has been merged into
    the niches, the clock has been read once and the state file holds
    the new state. *)
Theorem update_appends_and_truncates a m d :
  state m = VDict d ->
  updatable (VDict d) = true ->
  exists m' d',
    update_state (VDict a) m = (Ok tt, m')
    /\ state m' = VDict d'
    /\ dict_get (lit "niches") d'
       = Some (VList (merged (get_or (lit "topic") (VStr []) a)
                             (niches_of (state m))))
    /\ dict_get (lit "history") d'
       = Some (VList (last3 (history_of (state m)
                             ++ [turn (clock m (ticks m)) a])))
    /\ List.length (history_of (state m'))
       = Nat.min (S (List.length (history_of (state m)))) 3
    /\ ticks m' = S (ticks m)
    /\ fs m' = Dump (state m').
Proof.
  intros Hs Hu. eexists. exists (updated (clock m (ticks m)) a d).
  split; [apply (update_state_spec a Hs Hu)|]. cbv zeta. fields.
  rewrite Hs. cbn [niches_of history_of].
  split; [reflexivity|].
  split; [apply (updated_niches _ _ Hu)|].
  split; [apply (updated_history _ _ Hu)|].
  split; [|now split].
  unfold list_at at 1. rewrite (updated_history _ _ Hu).
  rewrite last3_length, length_app. cbn [List.length]. lia.
Qed.

Lemma update_appends_and_truncates_witness :
  let old := VList [VInt 1; VInt 2; VInt 3; VInt 4; VInt 5] in
  let m := with_state (VDict [(lit "history", old)]) (fresh offline seconds) in
  let a := [(lit "topic", VStr (lit "owls"))] in
  exists m',
    update_state (VDict a) m = (Ok tt, m')
    /\ history_of (state m') = [VInt 4; VInt 5; turn (seconds 0) a]
    /\ niches_of (state m') = [VStr (lit "owls")].
Proof.
  cbv zeta.
  destruct (@update_appends_and_truncates
              [(lit "topic", VStr (lit "owls"))]
              (with_state
                 (VDict [(lit "history",
                          VList [VInt 1; VInt 2; VInt 3; VInt 4; VInt 5])])
                 (fresh offline seconds))
              [(lit "history", VList [VInt 1; VInt 2; VInt 3; VInt 4; VInt 5])]
              eq_refl eq_refl)
    as (m' & d' & Hrun & Hs & Hn & Hh & _).
  exists m'. split; [exact Hrun|]. rewrite Hs. cbn [history_of niches_of].
  unfold list_at. rewrite Hn, Hh. split; reflexivity.
Defined.

Lemma list_at_ensure k k' d : list_at k (ensure k' d) = list_at k d.
Proof.
  unfold ensure, dict_has. destruct (dict_get k' d) eqn:E; [reflexivity|].
  unfold list_at. destruct (str_eqb k k') eqn:Ek.
  - apply str_eqb_eq in Ek. subst. now rewrite dict_get_set_same, E.
  - now rewrite dict_get_set_other.
Qed.

(** X6: [update_state] with an analysis that is not a dict, on a state
    object, raises [AttributeError] when it asks for the topic: by then
    it has at most created the missing [niches] and [history] entries;
    the niches and the history hold what they held, the clock has not
    been read and the state file is untouched. *)
Theorem update_rejects_other_analyses A m d :
  state m = VDict d ->
  (forall a, A <> VDict a) ->
  update_state A m
  = (Raise AttributeError,
     with_state (VDict (ensure (lit "history") (ensure (lit "niches") d))) m)
  /\ niches_of (VDict (ensure (lit "history") (ensure (lit "niches") d)))
     = niches_of (state m)
  /\ history_of (VDict (ensure (lit "history") (ensure (lit "niches") d)))
     = history_of (state m).
Proof.
  intros Hs HA. split; [|rewrite Hs; cbn; now rewrite !list_at_ensure].
  unfold update_state.
  rewrite (bind_ok _ (ensure_key_spec (lit "niches") Hs)).
  erewrite bind_ok by (apply ensure_key_spec; reflexivity).
  assert (G : forall k v, py_get A k v = Raise AttributeError).
  { intros k v. destruct A; try reflexivity. now destruct (HA d0). }
  rewrite G. destruct m; reflexivity.
Qed.

Lemma update_rejects_other_analyses_witness :
  let m := fresh offline seconds in
  fst (update_state (VStr (lit "cats")) m) = Raise AttributeError
  /\ snd (update_state (VStr (lit "cats")) m) = m.
Proof.
  cbv zeta.
  destruct (@update_rejects_other_analyses (VStr (lit "cats"))
              (fresh offline seconds) _ eq_refl) as (H & _).
  - discriminate.
  - rewrite H. split; reflexivity.
Defined.

(** The niches part of [update_state], on a state object whose niches
    are a list. *)
Lemma merge_topic_spec topic d l m :
  state m = VDict d ->
  dict_get (lit "niches") d = Some (VList l) ->
  (if truthy topic then
     st <- get_state ;;
     niches <- lift (py_getitem st (lit "niches")) ;;
     present <- lift (py_contains topic niches) ;;
     if present then ret tt else append_at (lit "niches") topic
   else ret tt) m
  = (Ok tt,
     with_state (VDict (dict_set (lit "niches") (VList (merged topic l)) d)) m).
Proof.
  intros Hs G. unfold merged.
  assert (Same : with_state (VDict (dict_set (lit "niches") (VList l) d)) m = m).
  { rewrite (dict_set_same G), <- Hs. apply with_state_same. }
  destruct (truthy topic); cbn [andb]; [|now rewrite Same].
  rewrite bind_get_state, Hs, (py_getitem_dict G), bind_lift.
  cbn [py_contains]. rewrite bind_lift.
  destruct (existsb (py_eq topic) l); cbn [negb]; [now rewrite Same|].
  now apply append_at_spec.
Qed.

(** X7: when the [history] entry of the state object is not a list while
    the niches are, [update_state] raises [AttributeError] at the append
    to the history, after it has merged the topic into the niches in
    memory: the state file is not written, so memory and file differ
    from then on, and the clock has not been read. *)
Theorem failed_update_is_not_persisted a m d h :
  state m = VDict d ->
  absent_or_list (dict_get (lit "niches") d) = true ->
  dict_get (lit "history") d = Some h ->
  (forall l, h <> VList l) ->
  exists m',
    update_state (VDict a) m = (Raise AttributeError, m')
    /\ niches_of (state m')
       = merged (get_or (lit "topic") (VStr []) a) (niches_of (state m))
    /\ fs m' = fs m
    /\ ticks m' = ticks m.
Proof.
  intros Hs Hn Hh Hl.
  set (d1 := ensure (lit "niches") d).
  assert (E2 : ensure (lit "history") d1 = d1).
  { unfold ensure, dict_has, d1.
    now rewrite dict_get_ensure_other, Hh by reflexivity. }
  assert (Gn : dict_get (lit "niches") d1
               = Some (VList (list_at (lit "niches") d)))
    by now apply dict_get_ensure_same.
  set (topic := get_or (lit "topic") (VStr []) a).
  set (d3 := dict_set (lit "niches")
               (VList (merged topic (list_at (lit "niches") d))) d1).
  exists (with_state (VDict d3) m).
  split; [|rewrite Hs; cbn [niches_of]; fields; cbn [niches_of];
           unfold d3; rewrite list_at_set_same; now repeat split].
  unfold update_state.
  rewrite (bind_ok _ (ensure_key_spec (lit "niches") Hs)).
  erewrite bind_ok by (apply ensure_key_spec; reflexivity).
  fold d1. rewrite E2. rewrite py_get_dict, bind_lift. fold topic.
  erewrite bind_ok
    by (apply (@merge_topic_spec topic d1); [reflexivity|exact Gn]).
  rewrite bind_get_state. fields. fold d3.
  assert (Gh : dict_get (lit "history") d3 = Some h).
  { unfold d3, d1. rewrite dict_get_set_other by reflexivity.
    now rewrite dict_get_ensure_other by reflexivity. }
  rewrite (py_getitem_dict Gh), bind_lift.
  assert (Ha : py_append_method h = Raise AttributeError).
  { destruct h; try reflexivity. now destruct (Hl l). }
  rewrite Ha. destruct m; reflexivity.
Qed.

Lemma failed_update_is_not_persisted_witness :
  let m := with_state (VDict [(lit "history", VStr (lit "none yet"))])
             (fresh offline seconds) in
  exists m',
    update_state (VDict [(lit "topic", VStr (lit "owls"))]) m
    = (Raise AttributeError, m')
    /\ niches_of (state m') = [VStr (lit "owls")]
    /\ fs m' = Dump default_state.
Proof.
  cbv zeta.
  destruct (@failed_update_is_not_persisted
              [(lit "topic", VStr (lit "owls"))]
              (with_state (VDict [(lit "history", VStr (lit "none yet"))])
                 (fresh offline seconds))
              [(lit "history", VStr (lit "none yet"))]
              (VStr (lit "none yet")))
    as (m' & Hrun & Hn & Hfs & _).
  - reflexivity.
  - reflexivity.
  - reflexivity.
  - discriminate.
  - exists m'. split; [exact Hrun|]. split; [exact Hn|exact Hfs].
Defined.

(** *** What every step of the agent respects *)

Section Within.

Variable R : machine -> machine -> Prop.
Hypothesis R_refl : forall m, R m m.
Hypothesis R_trans : forall m1 m2 m3, R m1 m2 -> R m2 m3 -> R m1 m3.

Lemma within_ret (A : Type) (a : A) : within R (ret a).
Proof. intros m r m' [= _ <-]. apply R_refl. Qed.

Lemma within_lift (A : Type) (x : result A) : within R (lift x).
Proof. intros m r m' [= _ <-]. apply R_refl. Qed.

Lemma within_raise (A : Type) e : within R (@raise A e).
Proof. intros m r m' [= _ <-]. apply R_refl. Qed.

Lemma within_get_state : within R get_state.
Proof. intros m r m' [= _ <-]. apply R_refl. Qed.

Lemma within_bind (A B : Type) (c : M A) (k : A -> M B) :
  within R c -> (forall a, within R (k a)) -> within R (bind c k).
Proof.
  intros Hc Hk m r m'. unfold bind.
  destruct (c m) as [[a|e] m1] eqn:E.
  - intros H. eapply R_trans; [apply (Hc _ _ _ E)|apply (Hk _ _ _ _ H)].
  - intros [= _ <-]. apply (Hc _ _ _ E).
Qed.

Lemma within_try_except (A : Type) (c : M A) caught (h : exn -> M A) :
  within R c -> (forall e, within R (h e)) ->
  within R (try_except c caught h).
Proof.
  intros Hc Hh m r m'. unfold try_except.
  destruct (c m) as [[a|e] m1] eqn:E.
  - intros [= _ <-]. apply (Hc _ _ _ E).
  - destruct (caught e).
    + intros H. eapply R_trans; [apply (Hc _ _ _ E)|apply (Hh _ _ _ _ H)].
    + intros [= _ <-]. apply (Hc _ _ _ E).
Qed.

End Within.

Lemma same_other_entries_refl st : same_other_entries st st.
Proof. now left. Qed.

Lemma same_other_entries_trans st1 st2 st3 :
  same_other_entries st1 st2 -> same_other_entries st2 st3 ->
  same_other_entries st1 st3.
Proof.
  intros H12 H23.
  destruct H12 as [->|(d & d' & -> & -> & H)]; [exact H23|].
  destruct H23 as [->|(e & e' & E & -> & H')].
  - right. now exists d, d'.
  - injection E as <-. right. exists d, e'. repeat split.
    intros k K1 K2. now rewrite H', H.
Qed.

Lemma tone_shown_other_entries st st' tone :
  same_other_entries st st' -> tone_shown st' tone -> tone_shown st tone.
Proof.
  intros [->|(d & d' & -> & -> & H)]; [trivial|].
  unfold tone_shown, stored_tone. now rewrite H by reflexivity.
Qed.

Lemma agent_step_refl m : agent_step m m.
Proof.
  repeat split; trivial.
  - exists []. rewrite app_nil_r. split; [reflexivity|]. intros ? ? [].
  - exists []. now rewrite app_nil_r.
  - apply same_other_entries_refl.
Qed.

Lemma agent_step_trans m1 m2 m3 :
  agent_step m1 m2 -> agent_step m2 m3 -> agent_step m1 m3.
Proof.
  intros (O1 & C1 & (s1 & S1 & T1) & K1 & (p1 & P1) & E1)
         (O2 & C2 & (s2 & S2 & T2) & K2 & (p2 & P2) & E2).
  repeat split; try congruence; try lia.
  - exists (s1 ++ s2). split; [now rewrite S2, S1, app_assoc|].
    intros plan tone Hin. apply in_app_iff in Hin as [Hin|Hin].
    + now apply (T1 plan).
    + eapply tone_shown_other_entries; [exact E1|now apply (T2 plan)].
  - exists (p1 ++ p2). now rewrite P2, P1, app_assoc.
  - eapply same_other_entries_trans; eassumption.
Qed.

Lemma silent_step_refl m : silent_step m m.
Proof. now split. Qed.

Lemma silent_step_trans m1 m2 m3 :
  silent_step m1 m2 -> silent_step m2 m3 -> silent_step m1 m3.
Proof. intros [O1 C1] [O2 C2]. split; congruence. Qed.

(** A machine changed in what it printed, in its clock readings, in its
    state file, or by sending a prompt that is not an output prompt. *)
Lemma agent_step_fields m f t printed sent :
  ticks m <= t ->
  (forall plan tone, ~ In (OutputPrompt plan tone) sent) ->
  agent_step m (Machine (oracle m) (clock m) f (calls m ++ sent) t
                        (console m ++ printed) (state m)).
Proof.
  intros Ht Hs. repeat split; trivial.
  - exists sent. split; [reflexivity|]. intros plan tone Hin.
    now destruct (Hs plan tone).
  - now exists printed.
  - apply same_other_entries_refl.
Qed.

Lemma agent_step_print l : within agent_step (print l).
Proof.
  intros m r m' [= _ <-].
  pose proof (@agent_step_fields m (fs m) (ticks m) [l] [] (le_n _)) as H.
  rewrite app_nil_r in H. apply H. intros ? ? [].
Qed.

Lemma agent_step_now : within agent_step now.
Proof.
  intros m r m' [= _ <-].
  pose proof (@agent_step_fields m (fs m) (S (ticks m)) [] []) as H.
  rewrite !app_nil_r in H. apply H; [lia|]. intros ? ? [].
Qed.

Lemma agent_step_save_state : within agent_step save_state.
Proof.
  intros m r m' [= _ <-].
  pose proof (@agent_step_fields m (Dump (state m)) (ticks m) [] [] (le_n _))
    as H.
  rewrite !app_nil_r in H. apply H. intros ? ? [].
Qed.

Lemma agent_step_generate_content p :
  (forall plan tone, p <> OutputPrompt plan tone) ->
  within agent_step (generate_content p).
Proof.
  intros Hp m r m' [= _ <-].
  pose proof (@agent_step_fields m (fs m) (ticks m) [] [p] (le_n _)) as H.
  rewrite app_nil_r in H. apply H. intros plan tone [E|[]].
  now destruct (Hp plan tone).
Qed.

(** Writing the [niches] or the [history] entry of a state object. *)
Lemma agent_step_set_entry k v d m :
  state m = VDict d ->
  k = lit "niches" \/ k = lit "history" ->
  agent_step m (with_state (VDict (dict_set k v d)) m).
Proof.
  intros Hs Hk. repeat split; trivial.
  - exists []. rewrite app_nil_r. split; [reflexivity|]. intros ? ? [].
  - exists []. now rewrite app_nil_r.
  - rewrite Hs. right. exists d, (dict_set k v d). repeat split.
    intros k' K1 K2. apply dict_get_set_other.
    destruct Hk as [->| ->]; assumption.
Qed.

Lemma agent_step_ensure_key k :
  k = lit "niches" \/ k = lit "history" ->
  within agent_step (ensure_key k).
Proof.
  intros Hk m r m'. unfold ensure_key. rewrite bind_get_state.
  destruct (py_contains (VStr k) (state m)) as [[|]|e] eqn:E;
    try (intros [= _ <-]; apply agent_step_refl).
  rewrite bind_lift.
  destruct (state m) as [| | | | | |d] eqn:Hs;
    try (intros [= _ <-]; apply agent_step_refl).
  cbn [py_setitem]. rewrite bind_lift. intros [= _ <-].
  now apply agent_step_set_entry.
Qed.

Lemma agent_step_append_at k x :
  k = lit "niches" \/ k = lit "history" ->
  within agent_step (append_at k x).
Proof.
  intros Hk m r m'. unfold append_at. rewrite bind_get_state.
  destruct (state m) as [| | | | | |d] eqn:Hs;
    try (intros [= _ <-]; apply agent_step_refl).
  cbn [py_getitem]. destruct (dict_get k d) as [c|];
    [|intros [= _ <-]; apply agent_step_refl].
  rewrite bind_lift.
  destruct c; try (intros [= _ <-]; apply agent_step_refl).
  cbn [py_append py_setitem]. rewrite !bind_lift. intros [= _ <-].
  now apply agent_step_set_entry.
Qed.

(** The end of [update_state]: the history is cut and the state saved. *)
Lemma agent_step_truncate :
  within agent_step
    (st <- get_state ;;
     history <- lift (py_getitem st (lit "history")) ;;
     kept <- lift (py_last3 history) ;;
     st' <- lift (py_setitem st (lit "history") kept) ;;
     set_state st' ;;
     save_state).
Proof.
  intros m r m'. rewrite bind_get_state.
  destruct (state m) as [| | | | | |d] eqn:Hs;
    try (intros [= _ <-]; apply agent_step_refl).
  cbn [py_getitem]. destruct (dict_get (lit "history") d) as [h|];
    [|intros [= _ <-]; apply agent_step_refl].
  rewrite bind_lift.
  destruct (py_last3 h) as [kept|e];
    [|intros [= _ <-]; apply agent_step_refl].
  rewrite bind_lift. cbn [py_setitem]. rewrite bind_lift, bind_set_state.
  intros H. eapply agent_step_trans;
    [apply (@agent_step_set_entry (lit "history") kept d m Hs); now right|].
  apply (agent_step_save_state H).
Qed.

Ltac within_steps R_refl R_trans leaf :=
  repeat first
    [ apply (within_ret R_refl) | apply (within_lift R_refl)
    | apply (within_raise R_refl) | apply (within_get_state R_refl)
    | leaf
    | apply (within_bind R_trans); [|intros ?]
    | apply (within_try_except R_trans); [|intros ?]
    | match goal with
      | |- within _ (if ?b then _ else _) => destruct b
      | |- within _ (match ?x with _ => _ end) => destruct x
      end ].

Ltac agent_leaf :=
  first [ apply agent_step_truncate
        | apply agent_step_print | apply agent_step_now
        | apply agent_step_save_state
        | apply agent_step_ensure_key; (now left) || (now right)
        | apply agent_step_append_at; (now left) || (now right)
        | apply agent_step_generate_content; discriminate ].

Lemma agent_step_update_state a : within agent_step (update_state a).
Proof.
  unfold update_state.
  within_steps agent_step_refl agent_step_trans agent_leaf.
Qed.

Lemma agent_step_input_understanding u :
  within agent_step (input_understanding u).
Proof.
  unfold input_understanding.
  within_steps agent_step_refl agent_step_trans agent_leaf.
Qed.

Lemma agent_step_plan_task a : within agent_step (plan_task a).
Proof.
  unfold plan_task.
  within_steps agent_step_refl agent_step_trans agent_leaf.
Qed.

Lemma agent_step_generate_output plan :
  within agent_step (generate_output plan).
Proof.
  intros m r m'.
  destruct (state m) as [| | | | | |d] eqn:Hs;
    try (unfold generate_output; rewrite bind_get_state, Hs;
         intros [= _ <-]; apply agent_step_refl).
  rewrite (generate_output_spec plan Hs).
  destruct (stored_tone d) as [tone|e] eqn:Et;
    [|intros [= _ <-]; apply agent_step_refl].
  intros [= _ <-]. unfold with_calls. repeat split; trivial.
  - exists [OutputPrompt plan tone]. split; [reflexivity|].
    intros plan' tone' [[= _ <-]|[]]. now rewrite Hs.
  - exists []. now rewrite app_nil_r.
  - apply same_other_entries_refl.
Qed.

Ltac agent_leaf' :=
  first [ apply agent_step_input_understanding
        | apply agent_step_update_state
        | apply agent_step_plan_task
        | apply agent_step_generate_output
        | agent_leaf ].

Lemma agent_step_run u : within agent_step (run u).
Proof.
  unfold run. within_steps agent_step_refl agent_step_trans agent_leaf'.
Qed.

Lemma agent_step_loop_body u : within agent_step (loop_body u).
Proof.
  unfold loop_body.
  within_steps agent_step_refl agent_step_trans
    ltac:(first [apply agent_step_run | agent_leaf]).
Qed.

Lemma agent_step_loop lines : within agent_step (loop lines).
Proof.
  induction lines as [|l rest IH]; cbn [loop].
  - apply (within_ret agent_step_refl).
  - apply (within_bind agent_step_trans); [apply agent_step_loop_body|].
    intros [|]; [exact IH|apply (within_ret agent_step_refl)].
Qed.

(** X8: whatever the lines typed, the answers of the service and the
    state, and whether or not requests fail, the loop changes the state
    in its [niches] and [history] entries at most: every other entry of
    the state object, [user_preferences] among them, keeps its value,
    and none is added or removed. *)
Theorem session_keeps_other_entries lines m r m' :
  loop lines m = (r, m') ->
  same_other_entries (state m) (state m')
  /\ forall d d', state m = VDict d -> state m' = VDict d' ->
       dict_get (lit "user_preferences") d'
       = dict_get (lit "user_preferences") d.
Proof.
  intros H. destruct (agent_step_loop H) as (_ & _ & _ & _ & _ & E).
  split; [exact E|]. intros d d' Hs Hs'. rewrite Hs, Hs' in E.
  destruct E as [[= ->]|(e & e' & [= <-] & [= <-] & E)]; [reflexivity|].
  now apply E.
Qed.

Lemma session_keeps_other_entries_witness :
  let lines := [lit "cats"; lit "  "; lit "dogs"] in
  let m := fresh numbering seconds in
  exists r m',
    loop lines m = (r, m')
    /\ same_other_entries (state m) (state m')
    /\ niches_of (state m') = [VInt 5].
Proof.
  cbv zeta.
  destruct (loop [lit "cats"; lit "  "; lit "dogs"] (fresh numbering seconds))
    as [r m'] eqn:E.
  exists r, m'. split; [reflexivity|].
  split; [apply (session_keeps_other_entries E)|].
  assert (E' : m' = snd (loop [lit "cats"; lit "  "; lit "dogs"]
                           (fresh numbering seconds))) by now rewrite E.
  rewrite E'. vm_compute. reflexivity.
Defined.

(** X9: every output prompt the loop sends carries the tone stored in
    the state when the loop started (the one under [user_preferences],
    [friendly] when there is none): the tone the extractor finds in a
    request never reaches the renderer, and no request changes the
    stored one. *)
Theorem rendering_tone_is_the_stored_one lines m r m' :
  loop lines m = (r, m') ->
  exists sent,
    calls m' = calls m ++ sent
    /\ forall plan tone, In (OutputPrompt plan tone) sent ->
         exists d, state m = VDict d /\ stored_tone d = Ok tone.
Proof.
  intros H. destruct (agent_step_loop H) as (_ & _ & (sent & Hs & Ht) & _).
  exists sent. split; [exact Hs|]. intros plan tone Hin.
  specialize (Ht plan tone Hin). unfold tone_shown in Ht.
  destruct (state m) as [| | | | | |d]; try easy. now exists d.
Qed.

Lemma rendering_tone_is_the_stored_one_witness :
  let m := fresh helpful seconds in
  exists r m',
    loop [lit "cats"; lit "dogs"] m = (r, m')
    /\ forall plan tone, In (OutputPrompt plan tone) (calls m') ->
         tone = VStr (lit "friendly").
Proof.
  cbv zeta.
  destruct (loop [lit "cats"; lit "dogs"] (fresh helpful seconds))
    as [r m'] eqn:E.
  exists r, m'. split; [reflexivity|]. intros plan tone Hin.
  destruct (rendering_tone_is_the_stored_one E) as (sent & Hs & Ht).
  cbn [calls fresh app] in Hs. rewrite Hs in Hin.
  destruct (Ht plan tone Hin) as (d & [= <-] & Hd).
  vm_compute in Hd. now injection Hd as <-.
Defined.

(** *** Calls to the service *)

Lemma bind_lift_raise (A B : Type) e (k : A -> M B) m :
  bind (lift (Raise e)) k m = (Raise e, m).
Proof. reflexivity. Qed.

(** Going through a chain of pure steps: each either raises, which ends
    the computation on the machine as it is, or hands on its value. *)
Ltac pure_steps :=
  repeat match goal with
  | |- bind (lift ?x) _ _ = _ -> _ =>
      let E := fresh "E" in
      destruct x eqn:E;
      [ rewrite bind_lift; cbv beta
      | rewrite bind_lift_raise; intros [= <- <-]; left; eauto ]
  end.

(** The two ways [plan_task] can end. *)
Lemma plan_task_outcome a m r m' :
  plan_task a m = (r, m') ->
  (exists e, r = Raise e /\ m' = m)
  \/ (exists topic tone constraints niches topics casual,
        let p := PlanningPrompt topic tone constraints niches topics casual in
        r = Ok (oracle m (List.length (calls m)) p)
        /\ m' = with_calls (calls m ++ [p]) m).
Proof.
  unfold plan_task. rewrite bind_get_state. cbv beta.
  pure_steps. intros [= <- <-]. right. do 6 eexists. cbv zeta.
  split; reflexivity.
Qed.


(** X10: [plan_task], on any machine: when it raises, nothing has
    happened; when it returns, it has sent one planning prompt and
    returns the service's answer to it as it is. It never changes the
    state, never writes the state file, never reads the clock and never
    prints. *)
Theorem plan_task_only_sends a m r m' :
  plan_task a m = (r, m') ->
  (exists e, r = Raise e /\ m' = m)
  \/ (exists topic tone constraints niches topics casual,
        let p := PlanningPrompt topic tone constraints niches topics casual in
        r = Ok (oracle m (List.length (calls m)) p)
        /\ m' = with_calls (calls m ++ [p]) m).
Proof. apply plan_task_outcome. Qed.

Lemma plan_task_only_sends_witness :
  let m := fresh helpful seconds in
  exists r m',
    plan_task (VDict [(lit "topic", VStr (lit "owls"))]) m = (r, m')
    /\ state m' = state m /\ fs m' = fs m /\ ticks m' = ticks m
    /\ List.length (calls m') <= 1.
Proof.
  cbv zeta.
  destruct (plan_task (VDict [(lit "topic", VStr (lit "owls"))])
              (fresh helpful seconds)) as [r m'] eqn:E.
  exists r, m'. split; [reflexivity|].
  destruct (plan_task_only_sends E)
    as [(e & _ & ->)|(t & tn & c & n & ts & ca & H)].
  - cbn. repeat split; lia.
  - cbv zeta in H. destruct H as [_ ->]. cbn. repeat split; lia.
Defined.

(** The two ways [generate_output] can end. *)
Lemma generate_output_outcome plan m r m' :
  generate_output plan m = (r, m') ->
  (r = Raise AttributeError /\ m' = m
   /\ forall d, state m = VDict d ->
        exists prefs, dict_get (lit "user_preferences") d = Some prefs
                      /\ forall p, prefs <> VDict p)
  \/ (exists d tone,
        let p := OutputPrompt plan tone in
        state m = VDict d
        /\ tone = match dict_get (lit "user_preferences") d with
                  | Some (VDict prefs) =>
                      get_or (lit "tone") (VStr (lit "friendly")) prefs
                  | _ => VStr (lit "friendly")
                  end
        /\ r = Ok (oracle m (List.length (calls m)) p)
        /\ m' = with_calls (calls m ++ [p]) m).
Proof.
  destruct (state m) as [| | | | | |d] eqn:Hs;
    try (unfold generate_output; rewrite bind_get_state, Hs;
         intros [= <- <-]; left; repeat split; discriminate).
  rewrite (generate_output_spec plan Hs). unfold stored_tone.
  destruct (dict_get (lit "user_preferences") d) as [prefs|] eqn:Ep.
  - destruct prefs;
      try (intros [= <- <-]; left; repeat split;
           intros d0 [= <-]; eexists; split; [exact Ep|discriminate]).
    rewrite py_get_dict. intros [= <- <-]. right. do 2 eexists. cbv zeta.
    split; [reflexivity|]. rewrite Ep. repeat split.
  - intros [= <- <-]. right. do 2 eexists. cbv zeta.
    split; [reflexivity|]. rewrite Ep. repeat split.
Qed.




Lemma silent_fields m f t printed s :
  silent_step m (Machine (oracle m) (clock m) f (calls m) t printed s).
Proof. now split. Qed.

Ltac silent_leaf :=
  match goal with
  | |- within silent_step ?c =>
      first [ unfold c | idtac ];
      let m := fresh "m" in let r := fresh "r" in let m' := fresh "m'" in
      intros m r m' [= _ <-]; apply silent_fields
  end.

Lemma silent_set_state s : within silent_step (set_state s).
Proof. silent_leaf. Qed.

Lemma silent_print l : within silent_step (print l).
Proof. silent_leaf. Qed.

Lemma silent_now : within silent_step now.
Proof. silent_leaf. Qed.

Lemma silent_save_state : within silent_step save_state.
Proof. silent_leaf. Qed.

Ltac silent_steps :=
  within_steps silent_step_refl silent_step_trans
    ltac:(first [ apply silent_set_state | apply silent_print
                | apply silent_now | apply silent_save_state ]).

Lemma silent_update_state a : within silent_step (update_state a).
Proof. unfold update_state, ensure_key, append_at. silent_steps. Qed.

(** X12: [run], on any machine, calls the service at most three times
    and never twice for one stage: first with the understanding prompt
    of its input; then, if the state update went through, with one
    planning prompt; then with one output prompt whose plan is the
    planner's answer as it came. It returns exactly when all three
    calls were made, and what it returns is the answer to the third. *)
Theorem run_calls_each_stage_once u m r m' :
  run u m = (r, m') ->
  let n := List.length (calls m) in
  exists rest,
    calls m' = calls m ++ UnderstandingPrompt u :: rest
    /\ ((rest = [] /\ exists e, r = Raise e)
        \/ (exists topic tone constraints niches topics casual,
              rest = [PlanningPrompt topic tone constraints niches topics
                                     casual]
              /\ exists e, r = Raise e)
        \/ (exists topic tone constraints niches topics casual stored,
              let P := PlanningPrompt topic tone constraints niches topics
                                      casual in
              let O := OutputPrompt (oracle m (S n) P) stored in
              rest = [P; O] /\ r = Ok (oracle m (S (S n)) O))).
Proof.
  cbv zeta. unfold run. unfold bind at 1.
  rewrite input_understanding_spec. cbv zeta.
  match goal with |- match ?x with _ => _ end = _ -> _ =>
    assert (F : exists A m1, x = (Ok A, m1) /\ oracle m1 = oracle m
                /\ calls m1 = calls m ++ [UnderstandingPrompt u])
      by (destruct (json_loads _); do 2 eexists; now repeat split)
  end.
  destruct F as (A & m1 & -> & Fo & Fc).
  destruct (py_setitem A (lit "user_input") (VStr u)) as [A'|e] eqn:EA;
    [rewrite bind_lift
    |rewrite bind_lift_raise; intros [= <- <-]; exists [];
     split; [exact Fc|left; eauto]].
  unfold bind at 1.
  destruct (update_state A' m1) as [[[]|e] m2] eqn:Eu.
  2:{ intros [= <- <-]. destruct (silent_update_state Eu) as [_ Hc].
      exists []. split; [congruence|left; eauto]. }
  destruct (silent_update_state Eu) as [Ho Hc].
  unfold bind at 1.
  destruct (plan_task A' m2) as [rp m3] eqn:Ep.
  destruct (plan_task_outcome Ep)
    as [(e & -> & ->)|(t & tn & c & ni & ts & ca & H)].
  { intros [= <- <-]. exists []. split; [congruence|left; eauto]. }
  cbv zeta in H. destruct H as [-> ->].
  set (P := PlanningPrompt t tn c ni ts ca).
  destruct (generate_output (oracle m2 (List.length (calls m2)) P)
              (with_calls (calls m2 ++ [P]) m2)) as [ro m4] eqn:Eo.
  assert (Hidx : oracle m2 (List.length (calls m2)) P
                 = oracle m (S (List.length (calls m))) P).
  { rewrite Ho, Fo, Hc, Fc, length_app. cbn [List.length].
    now rewrite Nat.add_1_r. }
  destruct (generate_output_outcome Eo)
    as [(-> & -> & _)|(d & tone & H)].
  { intros [= <- <-]. exists [P]. fields. split;
      [rewrite Hc, Fc, <- app_assoc; reflexivity|].
    right. left. do 6 eexists. split; [reflexivity|eauto]. }
  cbv zeta in H. destruct H as (_ & _ & -> & ->). fields.
  intros [= <- <-]. fields.
  exists [P; OutputPrompt (oracle m (S (List.length (calls m))) P) tone].
  split.
  - rewrite Hidx, Hc, Fc, <- !app_assoc. reflexivity.
  - right. right. do 7 eexists. cbv zeta. split; [reflexivity|].
    rewrite Hidx, Ho, Fo, Hc, Fc, !length_app. cbn [List.length].
    now rewrite !Nat.add_1_r.
Qed.

Lemma run_calls_each_stage_once_witness :
  exists r m',
    run (lit "cats") (fresh numbering seconds) = (r, m')
    /\ List.length (calls m') <= 3.
Proof.
  destruct (run (lit "cats") (fresh numbering seconds)) as [r m'] eqn:E.
  exists r, m'. split; [reflexivity|].
  destruct (run_calls_each_stage_once E) as (rest & -> & H).
  cbn [calls fresh app List.length].
  destruct H as [[-> _]|[(? & ? & ? & ? & ? & ? & -> & _)
                        |(? & ? & ? & ? & ? & ? & ? & H)]];
    [cbn; lia|cbn; lia|].
  cbv zeta in H. destruct H as [-> _]. cbn. lia.
Defined.

(** *** The loop *)

Lemma loop_body_command u m :
  is_command u = true -> loop_body u m = (Ok Break, m).
Proof.
  intros H. unfold loop_body, try_except. unfold is_command in H.
  now rewrite H.
Qed.



(** X14: what is typed after a line that says [exit] or [quit] is never
    looked at: the loop does the same with and without it. *)
Theorem lines_after_a_command_are_ignored before l after m :
  is_command l = true ->
  loop (before ++ l :: after) m = loop (before ++ [l]) m.
Proof.
  intros Hc. revert m. induction before as [|b before IH]; intros m.
  - cbn [app loop]. now rewrite !(bind_ok _ (loop_body_command m Hc)).
  - cbn [app loop]. unfold bind.
    destruct (loop_body b m) as [[[|]|e] m1]; [apply IH|reflexivity..].
Qed.

Lemma lines_after_a_command_are_ignored_witness :
  let m := fresh helpful seconds in
  is_command (lit "QuIt") = true
  /\ loop [lit "cats"; lit "QuIt"; lit "dogs"; lit "owls"] m
     = loop [lit "cats"; lit "QuIt"] m.
Proof.
  cbv zeta. split; [reflexivity|].
  apply (@lines_after_a_command_are_ignored [lit "cats"] (lit "QuIt")
           [lit "dogs"; lit "owls"] (fresh helpful seconds)).
  reflexivity.
Defined.

(** *** Memory and state file *)

(** One request on a machine whose memory and state file agree, however
    it ends. *)
Lemma run_in_step u m r m' :
  in_step m ->
  run u m = (r, m') ->
  in_step m'
  /\ (exists added, niches_of (state m') = niches_of (state m) ++ added)
  /\ (List.length (history_of (state m)) <= 3 ->
      List.length (history_of (state m')) <= 3).
Proof.
  intros [Hu Hf] Hrun.
  destruct (state m) as [| | | | | |d] eqn:Hs; try discriminate.
  rewrite (run_spec u Hs Hu) in Hrun.
  set (m1 := match json_loads _ with Some _ => _ | None => _ end) in Hrun.
  assert (F : state m1 = VDict d /\ fs m1 = Dump (VDict d)
              /\ clock m1 = clock m /\ ticks m1 = ticks m).
  { unfold m1. destruct (json_loads _); fields; now rewrite Hs, Hf. }
  destruct F as (F1 & F2 & F3 & F4).
  assert (Same : forall m2, state m2 = VDict d -> fs m2 = Dump (VDict d) ->
    in_step m2
    /\ (exists added, niches_of (state m2) = niches_of (VDict d) ++ added)
    /\ (List.length (history_of (VDict d)) <= 3 ->
        List.length (history_of (state m2)) <= 3)).
  { intros m2 E1 E2. unfold in_step. rewrite E1, E2.
    repeat split; trivial. exists []. now rewrite app_nil_r. }
  destruct (understood u m) as [| | | | | |a0];
    try (injection Hrun as _ <-; now apply Same).
  rewrite (stages_spec _ F1 Hu) in Hrun. cbv zeta in Hrun.
  rewrite F3, F4 in Hrun.
  set (a := dict_set (lit "user_input") (VStr u) a0) in Hrun.
  set (d' := updated (clock m (ticks m)) a d) in Hrun.
  assert (New : forall m2, state m2 = VDict d' -> fs m2 = Dump (VDict d') ->
    in_step m2
    /\ (exists added, niches_of (state m2) = niches_of (VDict d) ++ added)
    /\ (List.length (history_of (VDict d)) <= 3 ->
        List.length (history_of (state m2)) <= 3)).
  { intros m2 E1 E2. unfold in_step. rewrite E1, E2. unfold d'.
    rewrite (updated_updatable _ _ Hu), (updated_niches_of _ _ Hu),
            (updated_history_of _ _ Hu), last3_length.
    repeat split; trivial; [apply merged_prefix|lia]. }
  destruct (comprehension turn_topic _);
    [|injection Hrun as _ <-; now apply New].
  destruct (all_str _); [|injection Hrun as _ <-; now apply New].
  destruct (stored_tone d'); injection Hrun as _ <-; now apply New.
Qed.

Lemma with_console_same m : with_console (console m) m = m.
Proof. now destruct m. Qed.

Lemma loop_body_in_step u m r m' :
  in_step m ->
  loop_body u m = (r, m') ->
  in_step m'
  /\ (exists added, niches_of (state m') = niches_of (state m) ++ added)
  /\ (List.length (history_of (state m)) <= 3 ->
      List.length (history_of (state m')) <= 3).
Proof.
  intros Hi. unfold loop_body, try_except.
  assert (Same : forall c,
    in_step (with_console c m)
    /\ (exists added, niches_of (state (with_console c m))
                      = niches_of (state m) ++ added)
    /\ (List.length (history_of (state m)) <= 3 ->
        List.length (history_of (state (with_console c m))) <= 3)).
  { intros c. split; [exact Hi|]. split; [|trivial].
    exists []. now rewrite app_nil_r. }
  destruct (existsb _ _).
  { intros [= _ <-]. rewrite <- (with_console_same m). apply Same. }
  destruct (strip u).
  { intros [= _ <-]. apply Same. }
  unfold bind at 1. destruct (run u m) as [[out|e] m1] eqn:E;
    destruct (run_in_step Hi E) as (H1 & H2 & H3);
    intros [= _ <-]; (split; [exact H1|split; [exact H2|exact H3]]).
Qed.

Lemma loop_in_step lines : forall m r m',
  in_step m ->
  loop lines m = (r, m') ->
  in_step m'
  /\ (exists added, niches_of (state m') = niches_of (state m) ++ added)
  /\ (List.length (history_of (state m)) <= 3 ->
      List.length (history_of (state m')) <= 3).
Proof.
  induction lines as [|l rest IH]; intros m r m' Hi; cbn [loop].
  - intros [= _ <-]. repeat split; try apply Hi; trivial.
    exists []. now rewrite app_nil_r.
  - unfold bind. destruct (loop_body l m) as [[f|e] m1] eqn:E;
      destruct (loop_body_in_step Hi E) as (H1 & (ad1 & H2) & H3).
    + destruct f.
      * intros H. destruct (IH _ _ _ H1 H) as (K1 & (ad2 & K2) & K3).
        split; [exact K1|]. split; [|auto].
        exists (ad1 ++ ad2). now rewrite K2, H2, app_assoc.
      * intros [= _ <-]. repeat split; try apply H1; trivial. now exists ad1.
    + intros [= _ <-]. repeat split; try apply H1; trivial. now exists ad1.
Qed.

(** X15: memory and state file never drift apart. On a machine where
    the state file holds the state in memory and that state has the
    expected schema (as after start-up without a state file), however a
    session goes, with failing requests, blank lines and all, at its end
    the state file again holds exactly the state in memory, of the same
    schema. *)
Theorem session_keeps_file_in_step lines m r m' :
  updatable (state m) = true ->
  fs m = Dump (state m) ->
  loop lines m = (r, m') ->
  updatable (state m') = true /\ fs m' = Dump (state m').
Proof.
  intros Hu Hf H. now apply (loop_in_step (conj Hu Hf) H).
Qed.

Lemma session_keeps_file_in_step_witness :
  let lines := [lit "cats"; lit "dogs"] in
  let m := fresh numbering seconds in
  exists r m',
    loop lines m = (r, m')
    /\ fs m' = Dump (state m')
    /\ console m' = [ErrorLine TypeError; ErrorLine TypeError].
Proof.
  cbv zeta.
  destruct (loop [lit "cats"; lit "dogs"] (fresh numbering seconds))
    as [r m'] eqn:E.
  exists r, m'. split; [reflexivity|].
  split; [now apply (@session_keeps_file_in_step
                       [lit "cats"; lit "dogs"] (fresh numbering seconds)
                       r m' eq_refl eq_refl E)|].
  assert (E' : m' = snd (loop [lit "cats"; lit "dogs"]
                           (fresh numbering seconds))) by now rewrite E.
  rewrite E'. vm_compute. reflexivity.
Defined.

(** X16: across a whole session on such a machine, failing requests
    included, the niches are never shortened or reordered (what was
    there stays in front, new topics come after), and a history of at
    most three turns stays at most three. *)
Theorem session_only_appends_niches lines m r m' :
  updatable (state m) = true ->
  fs m = Dump (state m) ->
  loop lines m = (r, m') ->
  (exists added, niches_of (state m') = niches_of (state m) ++ added)
  /\ (List.length (history_of (state m)) <= 3 ->
      List.length (history_of (state m')) <= 3).
Proof.
  intros Hu Hf H. now apply (loop_in_step (conj Hu Hf) H).
Qed.

Lemma session_only_appends_niches_witness :
  let m := with_state
             (VDict [(lit "niches", VList [VStr (lit "bees")])])
             (with_fs (Dump (VDict [(lit "niches", VList [VStr (lit "bees")])]))
                (fresh helpful seconds)) in
  exists r m' added,
    loop [lit "cats"; lit "bees"; lit "exit"] m = (r, m')
    /\ niches_of (state m') = VStr (lit "bees") :: added
    /\ List.length (history_of (state m')) <= 3.
Proof.
  cbv zeta.
  set (m := with_state _ _).
  destruct (loop [lit "cats"; lit "bees"; lit "exit"] m) as [r m'] eqn:E.
  destruct (@session_only_appends_niches
              [lit "cats"; lit "bees"; lit "exit"] m r m' eq_refl eq_refl E)
    as [[added Ha] Hh].
  exists r, m', added. split; [reflexivity|]. split; [exact Ha|].
  apply Hh. unfold m. vm_compute. lia.
Defined.

(** *** When a request completes *)







(** *** What the extractor takes for JSON *)

Lemma strip_head_not_space s c r : strip s = c :: r -> is_space c = false.
Proof.
  unfold strip. intros H.
  assert (L : forall t, match lstrip t with
                        | [] => True
                        | x :: _ => is_space x = false
                        end).
  { induction t as [|x t IH]; cbn; [trivial|].
    destruct (is_space x) eqn:E; [exact IH|exact E]. }
  specialize (L s). destruct (lstrip s) as [|x t]; [discriminate|].
  cbn [rstrip] in H. destruct (rstrip t).
  - rewrite L in H. now injection H as <-.
  - now injection H as <-.
Qed.

Lemma json_ws_is_space c : is_json_ws c = true -> is_space c = true.
Proof.
  unfold is_json_ws. intros H.
  repeat (apply orb_true_iff in H as [H|H]);
    apply N.eqb_eq in H; subst; reflexivity.
Qed.

Lemma json_loads_no_start s :
  no_json_start s = true ->
  match s with [] => True | c :: _ => is_space c = false end ->
  json_loads s = None.
Proof.
  unfold json_loads. rewrite Nat.add_1_r. destruct s as [|c r].
  - reflexivity.
  - cbn [no_json_start]. intros Hj Hc.
    assert (W : is_json_ws c = false).
    { destruct (is_json_ws c) eqn:E; [|reflexivity].
      apply json_ws_is_space in E. congruence. }
    cbn [skip_ws]. rewrite W. cbn [scan_once].
    apply negb_true_iff in Hj. unfold json_start in Hj.
    apply orb_false_iff in Hj as [Hj H73].
    apply orb_false_iff in Hj as [Hj H78].
    apply orb_false_iff in Hj as [Hj H110].
    apply orb_false_iff in Hj as [Hj H102].
    apply orb_false_iff in Hj as [Hj H116].
    apply orb_false_iff in Hj as [Hj Hdig].
    apply orb_false_iff in Hj as [Hj H45].
    apply orb_false_iff in Hj as [Hj H91].
    apply orb_false_iff in Hj as [H34 H123].
    rewrite H34, H123, H91, H110, H116, H102, H78, H73.
    assert (S : starts_with (lit "-Infinity") (c :: r) = false).
    { change (lit "-Infinity") with (45%N :: lit "Infinity").
      cbn [starts_with]. now rewrite N.eqb_sym, H45. }
    rewrite S. unfold match_number, number_sign, number_int.
    now rewrite H45, Hdig.
Qed.

(** X18: the extractor takes the answer for JSON only if, once spaces
    around it are stripped, it begins like a JSON value. An answer that
    is empty or blank, or begins with anything else (a word, a Markdown
    code fence around the JSON, the error sentinel), is reported as a
    parse error and replaced by the fallback; the one call is made,
    nothing else changes. *)
Theorem answers_not_starting_like_json_fall_back u m :
  no_json_start
    (strip (oracle m (List.length (calls m)) (UnderstandingPrompt u)))
  = true ->
  input_understanding u m
  = (Ok fallback_analysis,
     with_console (console m ++ [ErrorParsingInput JSONDecodeError])
       (with_calls (calls m ++ [UnderstandingPrompt u]) m)).
Proof.
  intros H. rewrite input_understanding_spec. cbv zeta.
  rewrite json_loads_no_start; [reflexivity|exact H|].
  destruct (strip _) as [|c r] eqn:E; [trivial|].
  now apply strip_head_not_space in E.
Qed.

Lemma answers_not_starting_like_json_fall_back_witness :
  let m := fresh fenced seconds in
  no_json_start (strip (oracle m 0 (UnderstandingPrompt (lit "owls")))) = true
  /\ fst (input_understanding (lit "owls") m) = Ok fallback_analysis
  /\ niches_of (state (snd (run (lit "owls") m))) = [VStr (lit "general")].
Proof.
  cbv zeta. split; [vm_compute; reflexivity|].
  rewrite (@answers_not_starting_like_json_fall_back (lit "owls")
             (fresh fenced seconds)) by (vm_compute; reflexivity).
  split; [reflexivity|]. vm_compute. reflexivity.
Defined.
